(** * Large-payload client pipeline: ingestion, transport, rendering, store

    A shallow embedding of the React front end of the savings platform:

    - [Js]            the JavaScript values the components pass around;
    - [Api]           services/api.js: the axios instance and its retry
                      interceptor;
    - [AppStore]      store/appStore.js: the zustand store and its setters;
    - [Worker]        workers/jsonParser.worker.js;
    - [JsonInput]     components/JsonInput.jsx;
    - [VirtualTable]  components/VirtualTable.jsx;
    - [Pages]         the four pages that call the remote service
                      (TransactionParser, TransactionValidator, TemporalFilter,
                      ReturnsCalculator).

    The models come first, the theorems about them after. *)

From Stdlib Require Import ZArith Bool List String Ascii Lia.
From stdpp Require Import base option list gmap strings pretty.

Set Warnings "-register-all".

Local Open Scope string_scope.
Local Open Scope list_scope.
Local Open Scope Z_scope.

(** ** JavaScript values *)

Module Js.

(** The values that travel through the pipeline: what [JSON.parse] returns,
    what the remote service answers, and [undefined].  Numbers are modelled by
    the integers (no claim of the pipeline computes with fractions).  A
    character of a Rocq string stands for one UTF-16 code unit, so
    [String.length] is JavaScript's [.length]. *)
Inductive value : Type :=
| VUndefined
| VNull
| VBool (b : bool)
| VNum (n : Z)
| VStr (s : string)
| VArr (items : list value)
| VObj (fields : list (string * value)).

(** ToBoolean. *)
Definition truthy (v : value) : bool :=
  match v with
  | VUndefined | VNull => false
  | VBool b => b
  | VNum n => negb (n =? 0)
  | VStr s => negb (String.eqb s "")
  | VArr _ | VObj _ => true
  end.

(** [a || b]. *)
Definition or_else (a b : value) : value := if truthy a then a else b.

Definition nullish (v : value) : bool :=
  match v with
  | VUndefined | VNull => true
  | _ => false
  end.

(** The last binding of a key wins, as in an object literal. *)
Fixpoint assoc (k : string) (fields : list (string * value)) : option value :=
  match fields with
  | [] => None
  | (k', v) :: rest =>
      match assoc k rest with
      | Some w => Some w
      | None => if String.eqb k k' then Some v else None
      end
  end.

Fixpoint indexed (i : nat) (items : list value) : list (string * value) :=
  match items with
  | [] => []
  | x :: rest => (pretty i, x) :: indexed (S i) rest
  end.

(** The code units of a string, each a string of length one. *)
Fixpoint chars (s : string) : list value :=
  match s with
  | EmptyString => []
  | String c rest => VStr (String c EmptyString) :: chars rest
  end.

(** Property read [v.k] of an own property.  [None] is the TypeError raised
    when [v] is [null] or [undefined]; a missing property reads as
    [undefined].  An array has its [length] and its elements under the
    decimal keys ["0"], ["1"], ...; a string its [length] and its code
    units.  What a value inherits from its prototype (the methods,
    [constructor], [__proto__]) is a function or a prototype object, which
    [value] does not hold: for such a key, when it is not an own property,
    [get] answers [undefined] and is no model of the read. *)
Definition get (v : value) (k : string) : option value :=
  match v with
  | VUndefined | VNull => None
  | VArr items =>
      Some (if String.eqb k "length" then VNum (Z.of_nat (length items))
            else default VUndefined (assoc k (indexed 0 items)))
  | VStr s =>
      Some (if String.eqb k "length" then VNum (Z.of_nat (String.length s))
            else default VUndefined (assoc k (indexed 0 (chars s))))
  | VObj fields => Some (default VUndefined (assoc k fields))
  | VBool _ | VNum _ => Some VUndefined
  end.

(** Optional chaining [v?.k]. *)
Definition get_opt (v : value) (k : string) : value :=
  if nullish v then VUndefined else default VUndefined (get v k).

(** Indexed read [v[i]] of an array or a string; a number, a boolean or an
    object without that key reads as [undefined]. *)
Definition index (v : value) (i : nat) : value :=
  match v with
  | VArr items => default VUndefined (items !! i)
  | VStr s => default VUndefined (chars s !! i)
  | VObj fields => default VUndefined (assoc (pretty i) fields)
  | _ => VUndefined
  end.

(** The own enumerable properties copied by an object spread [{...v}]. *)
Definition spread (v : value) : list (string * value) :=
  match v with
  | VObj fields => fields
  | VArr items => indexed 0 items
  | VStr s => indexed 0 (chars s)
  | _ => []
  end.

(** [rawText.trim()] is truthy when some character is not white space. *)
Definition is_space (c : ascii) : bool :=
  let n := nat_of_ascii c in
  ((9 <=? n)%nat && (n <=? 13)%nat) || (n =? 32)%nat || (n =? 160)%nat.

Fixpoint blank (s : string) : bool :=
  match s with
  | EmptyString => true
  | String c rest => is_space c && blank rest
  end.

End Js.

(** ** services/api.js: the transport client *)

Module Api.
Import Js.

(** A request configuration object.  [baseURL] and [timeout] come from
    [axios.create]; [_retryCount] is the counter the interceptor keeps on the
    object ([None]: the property is absent). *)
Record Config : Type := mkConfig {
  baseURL : string;
  timeout : Z;
  url : string;
  method : string;
  data : value;
  _retryCount : option Z
}.

Record Response : Type := mkResponse {
  status : Z;
  body : value
}.

(** Configuration objects live in a heap: an error refers to the configuration
    of its request, and the interceptor writes to that very object. *)
Definition loc : Type := nat.

Record Error : Type := mkError {
  err_config : option loc;
  err_response : option Response;
  err_message : string
}.

(** How a promise settles. *)
Inductive Result : Type :=
| Resolved (response : Response)
| Rejected (error : Error).

(** What becomes of one request. *)
Inductive NetOutcome : Type :=
| Responded (response : Response)   (* the server answered, with any status *)
| NoResponse (message : string)     (* network failure or time-out: no answer *)
| NotSent (message : string).       (* an exception that is not an axios
                                       error: it carries no configuration *)

(** The outcome of the n-th request the client makes, n = 0, 1, ... *)
Definition Transport : Type := nat -> NetOutcome.

Inductive Event : Type :=
| Sent (attempt : nat) (config : Config)
| Slept (ms : Z).

Record Net : Type := mkNet {
  heap : list Config;
  sent : nat;
  trace : list Event
}.

Definition start : Net := {| heap := []; sent := 0; trace := [] |}.

(** State with failure: [None] is a run that was cut short (no fuel, or a
    read of an object that was never allocated). *)
Definition M (A : Type) : Type := Net -> option (A * Net).

Definition ret {A : Type} (a : A) : M A := fun s => Some (a, s).

Definition bind {A B : Type} (m : M A) (k : A -> M B) : M B :=
  fun s => match m s with
           | Some (a, s') => k a s'
           | None => None
           end.

#[local] Instance M_ret : MRet M := @ret.
#[local] Instance M_bind : MBind M := fun A B k m => bind m k.

Definition read (c : loc) : M Config :=
  fun s => match heap s !! c with
           | Some cfg => Some (cfg, s)
           | None => None
           end.

Definition write (c : loc) (cfg : Config) : M unit :=
  fun s => Some (tt, {| heap := <[c := cfg]> (heap s);
                        sent := sent s; trace := trace s |}).

Definition emit (e : Event) : M unit :=
  fun s => Some (tt, {| heap := heap s; sent := sent s;
                        trace := trace s ++ [e] |}).

(** [await new Promise((r) => setTimeout(r, ms))]. *)
Definition sleep (ms : Z) : M unit := emit (Slept ms).

Definition create : Config :=
  {| baseURL := "/blackrock/challenge/v1"; timeout := 60000;
     url := ""; method := "get"; data := VUndefined; _retryCount := None |}.

(** axios' default [validateStatus]. *)
Definition validateStatus (st : Z) : bool := (200 <=? st) && (st <? 300).

Definition set_retryCount (n : Z) (cfg : Config) : Config :=
  {| baseURL := baseURL cfg; timeout := timeout cfg; url := url cfg;
     method := method cfg; data := data cfg; _retryCount := Some n |}.

(** [config._retryCount || 0]. *)
Definition or0 (n : option Z) : Z := default 0 n.

Section Client.

Variable transport : Transport.

(** How axios settles a request whose configuration object is [c]: an answer
    with a 2xx status fulfils; any other answer, or none, becomes an error
    that refers to the request's configuration. *)
Definition settle (c : loc) (o : NetOutcome) : Response + Error :=
  match o with
  | Responded r =>
      if validateStatus (status r) then inl r
      else inr {| err_config := Some c; err_response := Some r;
                  err_message := "Request failed" |}
  | NoResponse msg =>
      inr {| err_config := Some c; err_response := None; err_message := msg |}
  | NotSent msg =>
      inr {| err_config := None; err_response := None; err_message := msg |}
  end.

(** One request through axios: the configuration is merged into a fresh
    object (custom properties such as [_retryCount] are kept), the request
    goes out, and the answer is settled. *)
Definition dispatch (config : Config) : M (Response + Error) :=
  fun s =>
    let c := length (heap s) in
    let n := sent s in
    Some (settle c (transport n),
          {| heap := heap s ++ [config]; sent := S n;
             trace := trace s ++ [Sent n config] |}).

(** [error.response.status >= 500]. *)
Definition server_error (r : Response) : bool := 500 <=? status r.

(** The rejection handler of [api.interceptors.response.use(null, ...)];
    [api] is the instance itself, called again for a retry. *)
Definition interceptor (api : Config -> M Result) (error : Error) : M Result :=
  match err_config error with
  | None => ret (Rejected error)
  | Some config =>
      cfg ← read config;
      let count := or0 (_retryCount cfg) + 1 in
      write config (set_retryCount count cfg);;
      if (count <=? 3) &&
         match err_response error with
         | None => true
         | Some r => server_error r
         end
      then
        sleep (1000 * count);;
        cfg' ← read config;
        api cfg'
      else ret (Rejected error)
  end.

(** The axios instance as a function: send, and hand a failure to the
    interceptor.  The recursion goes through the interceptor's retry, so it is
    cut by [fuel] ([None] when it runs out); four units are enough for a
    fresh request. *)
Fixpoint api (fuel : nat) (config : Config) : M Result :=
  match fuel with
  | O => fun _ => None
  | S fuel' =>
      r ← dispatch config;
      match r with
      | inl response => ret (Resolved response)
      | inr error => interceptor (api fuel') error
      end
  end.

Definition post (fuel : nat) (path : string) (payload : value) : M Result :=
  api fuel {| baseURL := baseURL create; timeout := timeout create;
              url := path; method := "post"; data := payload;
              _retryCount := None |}.

Definition api_get (fuel : nat) (path : string) : M Result :=
  api fuel {| baseURL := baseURL create; timeout := timeout create;
              url := path; method := "get"; data := VUndefined;
              _retryCount := None |}.

(** transactionAPI, returnsAPI, performanceAPI. *)
Definition transactionAPI_parse (fuel : nat) (expenses : value) : M Result :=
  post fuel "/transactions:parse" (VObj [("expenses", expenses)]).

Definition transactionAPI_validate (fuel : nat) (payload : value) : M Result :=
  post fuel "/transactions:validator" payload.

Definition transactionAPI_filter (fuel : nat) (payload : value) : M Result :=
  post fuel "/transactions:filter" payload.

Definition returnsAPI_nps (fuel : nat) (payload : value) : M Result :=
  post fuel "/returns:nps" payload.

Definition returnsAPI_index (fuel : nat) (payload : value) : M Result :=
  post fuel "/returns:index" payload.

Definition performanceAPI_get (fuel : nat) : M Result :=
  api_get fuel "/performance".

End Client.

(** The state after a request with configuration [cfg] has left. *)
Definition after_send (cfg : Config) (s : Net) : Net :=
  {| heap := heap s ++ [cfg]; sent := S (sent s);
     trace := trace s ++ [Sent (sent s) cfg] |}.

(** The state in which the interceptor hands that request back to the
    instance for retry number [count]. *)
Definition before_retry (cfg : Config) (count : Z) (s : Net) : Net :=
  {| heap := heap s ++ [set_retryCount count cfg]; sent := S (sent s);
     trace := trace s ++ [Sent (sent s) cfg; Slept (1000 * count)] |}.

(** The state in which the interceptor gives up on it. *)
Definition given_up (cfg : Config) (count : Z) (s : Net) : Net :=
  {| heap := heap s ++ [set_retryCount count cfg]; sent := S (sent s);
     trace := trace s ++ [Sent (sent s) cfg] |}.

Definition settlement (r : Response + Error) : Result :=
  match r with
  | inl response => Resolved response
  | inr error => Rejected error
  end.

(** The failures the retry policy is about: no answer from the network, or an
    answer with a status of 500 or more. *)
Definition retryable (o : NetOutcome) : bool :=
  match o with
  | Responded r => 500 <=? status r
  | NoResponse _ => true
  | NotSent _ => false
  end.

(** A run as a time line: [inl n] is request [n] leaving, [inr ms] a pause. *)
Definition timeline (t : list Event) : list (nat + Z) :=
  map (fun e => match e with Sent n _ => inl n | Slept ms => inr ms end) t.

(** [k] retries, the first of them being retry number [count] and sending
    request [n]: retry [i] waits [1000 * i] milliseconds, then sends. *)
Fixpoint retries (n : nat) (count : Z) (k : nat) : list (nat + Z) :=
  match k with
  | O => []
  | S k' => inr (1000 * count) :: inl n :: retries (S n) (count + 1) k'
  end.

(** The time line of a first attempt followed by [k] retries. *)
Definition schedule (k : nat) : list (nat + Z) := inl 0%nat :: retries 1 1 k.

(** The delays of a run, in order, and the number of requests sent. *)
Definition delays (t : list Event) : list Z :=
  omap (fun e => match e with Slept ms => Some ms | Sent _ _ => None end) t.

Definition requests (t : list Event) : list nat :=
  omap (fun e => match e with Sent n _ => Some n | Slept _ => None end) t.

(** Sample transports. *)
Definition always (st : Z) : Transport :=
  fun _ => Responded {| status := st; body := VNull |}.

Definition fails_twice : Transport :=
  fun n => if (n <? 2)%nat
           then Responded {| status := 500; body := VNull |}
           else Responded {| status := 200; body := VArr [] |}.

Definition offline : Transport := fun _ => NoResponse "Network Error".

End Api.

(** ** store/appStore.js: the zustand store *)

Module AppStore.
Import Js.

(** The state object of [create((set) => ({ ... }))].  Each slice is a field;
    [loading] is the object of per-operation flags, a map from operation key
    to value; [extra] holds the properties a computed key may add. *)
Record State : Type := mkState {
  transactions : value;
  validTransactions : value;
  invalidTransactions : value;
  filterResult : value;
  npsResult : value;
  indexResult : value;
  activeSection : value;
  loading : gmap string value;
  performanceMetrics : value;
  extra : gmap string value
}.

(** The object a setter hands to [set]: the slices it names. *)
Record Partial : Type := mkPartial {
  p_transactions : option value;
  p_validTransactions : option value;
  p_invalidTransactions : option value;
  p_filterResult : option value;
  p_npsResult : option value;
  p_indexResult : option value;
  p_activeSection : option value;
  p_loading : option (gmap string value);
  p_performanceMetrics : option value;
  p_extra : gmap string value
}.

Definition nothing : Partial :=
  {| p_transactions := None; p_validTransactions := None;
     p_invalidTransactions := None; p_filterResult := None;
     p_npsResult := None; p_indexResult := None; p_activeSection := None;
     p_loading := None; p_performanceMetrics := None; p_extra := ∅ |}.

(** zustand's [set(partial)]: the new state is the old one with the slices of
    [partial] replaced (a shallow merge). *)
Definition set (partial : Partial) (state : State) : State :=
  {| transactions := default (transactions state) (p_transactions partial);
     validTransactions :=
       default (validTransactions state) (p_validTransactions partial);
     invalidTransactions :=
       default (invalidTransactions state) (p_invalidTransactions partial);
     filterResult := default (filterResult state) (p_filterResult partial);
     npsResult := default (npsResult state) (p_npsResult partial);
     indexResult := default (indexResult state) (p_indexResult partial);
     activeSection := default (activeSection state) (p_activeSection partial);
     loading := default (loading state) (p_loading partial);
     performanceMetrics :=
       default (performanceMetrics state) (p_performanceMetrics partial);
     extra := p_extra partial ∪ extra state |}.

(** [set((state) => partial)]. *)
Definition set_with (f : State -> Partial) (state : State) : State :=
  set (f state) state.

Definition initial : State :=
  {| transactions := VArr []; validTransactions := VArr [];
     invalidTransactions := VArr []; filterResult := VNull;
     npsResult := VNull; indexResult := VNull;
     activeSection := VStr "parser"; loading := ∅;
     performanceMetrics := VNull; extra := ∅ |}.

Definition setTransactions (t : value) : State -> State :=
  set {| p_transactions := Some t; p_validTransactions := None;
         p_invalidTransactions := None; p_filterResult := None;
         p_npsResult := None; p_indexResult := None; p_activeSection := None;
         p_loading := None; p_performanceMetrics := None; p_extra := ∅ |}.

Definition setValidationResult (valid invalid : value) : State -> State :=
  set {| p_transactions := None; p_validTransactions := Some valid;
         p_invalidTransactions := Some invalid; p_filterResult := None;
         p_npsResult := None; p_indexResult := None; p_activeSection := None;
         p_loading := None; p_performanceMetrics := None; p_extra := ∅ |}.

Definition setFilterResult (r : value) : State -> State :=
  set {| p_transactions := None; p_validTransactions := None;
         p_invalidTransactions := None; p_filterResult := Some r;
         p_npsResult := None; p_indexResult := None; p_activeSection := None;
         p_loading := None; p_performanceMetrics := None; p_extra := ∅ |}.

(** [set({ [`${type}Result`]: result })]: the key is computed, so it names
    whichever slice is called [type ++ "Result"], or a new property. *)
Definition setReturnsResult (type : string) (result : value) : State -> State :=
  let key := type +:+ "Result" in
  set (if String.eqb key "npsResult" then
         {| p_transactions := None; p_validTransactions := None;
            p_invalidTransactions := None; p_filterResult := None;
            p_npsResult := Some result; p_indexResult := None;
            p_activeSection := None; p_loading := None;
            p_performanceMetrics := None; p_extra := ∅ |}
       else if String.eqb key "indexResult" then
         {| p_transactions := None; p_validTransactions := None;
            p_invalidTransactions := None; p_filterResult := None;
            p_npsResult := None; p_indexResult := Some result;
            p_activeSection := None; p_loading := None;
            p_performanceMetrics := None; p_extra := ∅ |}
       else if String.eqb key "filterResult" then
         {| p_transactions := None; p_validTransactions := None;
            p_invalidTransactions := None; p_filterResult := Some result;
            p_npsResult := None; p_indexResult := None;
            p_activeSection := None; p_loading := None;
            p_performanceMetrics := None; p_extra := ∅ |}
       else
         {| p_transactions := None; p_validTransactions := None;
            p_invalidTransactions := None; p_filterResult := None;
            p_npsResult := None; p_indexResult := None;
            p_activeSection := None; p_loading := None;
            p_performanceMetrics := None; p_extra := {[ key := result ]} |}).

Definition setActiveSection (s : value) : State -> State :=
  set {| p_transactions := None; p_validTransactions := None;
         p_invalidTransactions := None; p_filterResult := None;
         p_npsResult := None; p_indexResult := None;
         p_activeSection := Some s; p_loading := None;
         p_performanceMetrics := None; p_extra := ∅ |}.

(** [set((state) => ({ loading: { ...state.loading, [key]: val } }))]. *)
Definition setLoading (key : string) (val : value) : State -> State :=
  set_with (fun state =>
    {| p_transactions := None; p_validTransactions := None;
       p_invalidTransactions := None; p_filterResult := None;
       p_npsResult := None; p_indexResult := None; p_activeSection := None;
       p_loading := Some (<[key := val]> (loading state));
       p_performanceMetrics := None; p_extra := ∅ |}).

Definition setPerformanceMetrics (m : value) : State -> State :=
  set {| p_transactions := None; p_validTransactions := None;
         p_invalidTransactions := None; p_filterResult := None;
         p_npsResult := None; p_indexResult := None; p_activeSection := None;
         p_loading := None; p_performanceMetrics := Some m; p_extra := ∅ |}.

(** [loading.key] as a component reads it. *)
Definition flag (key : string) (state : State) : value :=
  default VUndefined (loading state !! key).

End AppStore.

(** ** workers/jsonParser.worker.js: the background decoder *)

Module Worker.
Import Js.

(** The two shapes of reply: [{ success: true, data }] and
    [{ success: false, error }]. *)
Inductive Reply : Type :=
| Success (data : value)
| Failure (error : string).

Definition success (r : Reply) : bool :=
  match r with
  | Success _ => true
  | Failure _ => false
  end.

Section Script.

(** [JSON.parse]: the decoded value, or the message of the SyntaxError it
    throws. *)
Variable JSON_parse : string -> value + string.

(** [self.onmessage]: the messages it posts back, in order. *)
Definition onmessage (e_data : string) : list Reply :=
  match JSON_parse e_data with
  | inl parsed => [Success parsed]
  | inr err_message => [Failure err_message]
  end.

End Script.

End Worker.

(** ** components/JsonInput.jsx: the ingestion controller *)

Module JsonInput.
Import Js.

(** Where a decode runs. *)
Inductive Context : Type :=
| MainThread
| InWorker (id : nat).

(** What the component does that an observer can see. *)
Inductive Event : Type :=
| Decoded (where_ : Context) (text : string)   (* a call of JSON.parse *)
| OnParsed (parsed : value)                    (* a call of the onParsed prop *)
| Spawned (id : nat)                           (* new Worker(...) *)
| Posted (id : nat) (text : string)            (* worker.postMessage(text) *)
| Replied (id : nat) (reply : Worker.Reply)    (* self.postMessage(reply) *)
| Terminated (id : nat).                       (* worker.terminate() *)

(** A worker as the main thread holds it: the messages on their way to it,
    the replies on their way back; or torn down. *)
Inductive WorkerState : Type :=
| Running (inbox : list string) (outbox : list Worker.Reply)
| Stopped.

Section Component.

(** The parent's state, which only [onParsed] can change from here.  The
    callback returns the new state and, if it throws, the error's message. *)
Variable Host : Type.
Variable onParsed : value -> Host -> Host * option string.
Variable sampleData : value.
Variable JSON_parse : string -> value + string.
Variable JSON_stringify : value -> string.

Record World : Type := mkWorld {
  rawText : string;
  error : option string;
  debouncedText : string;
  pending : option (Z * string);
  clock : Z;
  host : Host;
  workers : list WorkerState;
  log : list Event
}.

Definition setError (e : option string) (w : World) : World :=
  {| rawText := rawText w; error := e; debouncedText := debouncedText w;
     pending := pending w; clock := clock w; host := host w;
     workers := workers w; log := log w |}.

Definition setHost (h : Host) (w : World) : World :=
  {| rawText := rawText w; error := error w; debouncedText := debouncedText w;
     pending := pending w; clock := clock w; host := h;
     workers := workers w; log := log w |}.

Definition setWorkers (ws : list WorkerState) (w : World) : World :=
  {| rawText := rawText w; error := error w; debouncedText := debouncedText w;
     pending := pending w; clock := clock w; host := host w;
     workers := ws; log := log w |}.

Definition note (e : Event) (w : World) : World :=
  {| rawText := rawText w; error := error w; debouncedText := debouncedText w;
     pending := pending w; clock := clock w; host := host w;
     workers := workers w; log := log w ++ [e] |}.

(** Modelled from the spec: hooks/useDebounce.js is not among the sources.
    "Each new input event cancels the previous pending timer and schedules a
    new one", with the delay the component passes; when the timer fires the
    debounced copy takes the value. *)
Definition useDebounce (value : string) (delay : Z) (w : World) : World :=
  {| rawText := rawText w; error := error w; debouncedText := debouncedText w;
     pending := Some (clock w + delay, value); clock := clock w;
     host := host w; workers := workers w; log := log w |}.

(** Modelled from the spec: the timer of [useDebounce] after [ms]
    milliseconds have passed. *)
Definition elapse (ms : Z) (w : World) : World :=
  let now := clock w + ms in
  match pending w with
  | Some (deadline, value) =>
      if deadline <=? now then
        {| rawText := rawText w; error := error w; debouncedText := value;
           pending := None; clock := now; host := host w;
           workers := workers w; log := log w |}
      else
        {| rawText := rawText w; error := error w;
           debouncedText := debouncedText w; pending := pending w;
           clock := now; host := host w; workers := workers w; log := log w |}
  | None =>
      {| rawText := rawText w; error := error w;
         debouncedText := debouncedText w; pending := None;
         clock := now; host := host w; workers := workers w; log := log w |}
  end.

(** [setRawText(val)], and the render that follows it, in which
    [useDebounce(rawText, 300)] sees the new text. *)
Definition setRawText (val : string) (w : World) : World :=
  useDebounce val 300
    {| rawText := val; error := error w; debouncedText := debouncedText w;
       pending := pending w; clock := clock w; host := host w;
       workers := workers w; log := log w |}.

(** A call of the [onParsed] prop. *)
Definition call_onParsed (parsed : value) (w : World) : World * option string :=
  let w := note (OnParsed parsed) w in
  let '(h, thrown) := onParsed parsed (host w) in
  (setHost h w, thrown).

Definition parseJSON (text : string) (w : World) : World :=
  let w := note (Decoded MainThread text) w in
  match JSON_parse text with
  | inl parsed =>
      let w := setError None w in
      match call_onParsed parsed w with
      | (w, None) => w
      | (w, Some e_message) => setError (Some e_message) w
      end
  | inr e_message => setError (Some e_message) w
  end.

(** [worker.terminate()]. *)
Definition terminate (id : nat) (w : World) : World :=
  note (Terminated id) (setWorkers (<[id := Stopped]> (workers w)) w).

(** The handler [worker.onmessage = (e) => ...] that [parseWithWorker]
    installs on worker [id].  An exception of [onParsed] is not caught here:
    it ends the handler. *)
Definition worker_onmessage (id : nat) (e_data : Worker.Reply) (w : World) : World :=
  let w := terminate id w in
  match e_data with
  | Worker.Success data =>
      let w := setError None w in
      fst (call_onParsed data w)
  | Worker.Failure err => setError (Some err) w
  end.

(** [worker.postMessage(text)]. *)
Definition postMessage (id : nat) (text : string) (w : World) : World :=
  let ws :=
    match workers w !! id with
    | Some (Running inbox outbox) =>
        <[id := Running (inbox ++ [text]) outbox]> (workers w)
    | _ => workers w
    end in
  note (Posted id text) (setWorkers ws w).

Definition parseWithWorker (text : string) (w : World) : World :=
  if 100000 <? Z.of_nat (String.length text) then
    let worker := length (workers w) in
    let w := note (Spawned worker) (setWorkers (workers w ++ [Running [] []]) w) in
    postMessage worker text w
  else parseJSON text w.

Definition handleChange (e_target_value : string) (w : World) : World :=
  let val := e_target_value in
  setRawText val w.

Definition handleParse (w : World) : World :=
  if negb (blank (rawText w)) then parseWithWorker (rawText w) w else w.

(** [reader.onload]. *)
Definition reader_onload (event_target_result : string) (w : World) : World :=
  let text := event_target_result in
  let w := setRawText text w in
  parseWithWorker text w.

(** [handleFileUpload]; [None]: no file was chosen. *)
Definition handleFileUpload (file : option string) (w : World) : World :=
  match file with
  | None => w
  | Some content => reader_onload content w
  end.

(** [handlePaste]; [None]: reading the clipboard was refused. *)
Definition handlePaste (clipboard : option string) (w : World) : World :=
  match clipboard with
  | Some text =>
      let w := setRawText text w in
      parseWithWorker text w
  | None => setError (Some "Could not read clipboard") w
  end.

Definition handleLoadSample (w : World) : World :=
  if truthy sampleData then
    let text := JSON_stringify sampleData in
    let w := setRawText text w in
    match call_onParsed sampleData w with
    | (w, None) => setError None w
    | (w, Some _) => w
    end
  else w.

(** One turn of the worker's own event loop: it takes the next message and
    runs the script's [self.onmessage] on it. *)
Definition worker_turn (id : nat) (w : World) : World :=
  match workers w !! id with
  | Some (Running (text :: inbox) outbox) =>
      let replies := Worker.onmessage JSON_parse text in
      let w := note (Decoded (InWorker id) text) w in
      let w := fold_left (fun w r => note (Replied id r) w) replies w in
      setWorkers (<[id := Running inbox (outbox ++ replies)]> (workers w)) w
  | _ => w
  end.

(** One turn of the main event loop for worker [id]: the next reply is
    delivered to the handler. *)
Definition main_turn (id : nat) (w : World) : World :=
  match workers w !! id with
  | Some (Running inbox (reply :: outbox)) =>
      worker_onmessage id reply
        (setWorkers (<[id := Running inbox outbox]> (workers w)) w)
  | _ => w
  end.

(** What can happen to the component. *)
Inductive Action : Type :=
| Type_ (val : string)
| Elapse (ms : Z)
| ClickParse
| Paste (clipboard : option string)
| Upload (file : option string)
| LoadSample
| WorkerTurn (id : nat)
| MainTurn (id : nat).

Definition step (a : Action) (w : World) : World :=
  match a with
  | Type_ val => handleChange val w
  | Elapse ms => elapse ms w
  | ClickParse => handleParse w
  | Paste clipboard => handlePaste clipboard w
  | Upload file => handleFileUpload file w
  | LoadSample => handleLoadSample w
  | WorkerTurn id => worker_turn id w
  | MainTurn id => main_turn id w
  end.

Definition run (actions : list Action) (w : World) : World :=
  fold_left (fun w a => step a w) actions w.

Definition mount (h : Host) : World :=
  {| rawText := ""; error := None; debouncedText := ""; pending := None;
     clock := 0; host := h; workers := []; log := [] |}.

End Component.

Arguments rawText {Host} w.
Arguments error {Host} w.
Arguments debouncedText {Host} w.
Arguments pending {Host} w.
Arguments clock {Host} w.
Arguments host {Host} w.
Arguments workers {Host} w.
Arguments log {Host} w.
Arguments setError {Host} e w.
Arguments setHost {Host} h w.
Arguments setWorkers {Host} ws w.
Arguments note {Host} e w.
Arguments useDebounce {Host} value delay w.
Arguments elapse {Host} ms w.
Arguments setRawText {Host} val w.
Arguments call_onParsed {Host} onParsed parsed w.
Arguments parseJSON {Host} onParsed JSON_parse text w.
Arguments terminate {Host} id w.
Arguments worker_onmessage {Host} onParsed id e_data w.
Arguments postMessage {Host} id text w.
Arguments parseWithWorker {Host} onParsed JSON_parse text w.
Arguments handleChange {Host} e_target_value w.
Arguments handleParse {Host} onParsed JSON_parse w.
Arguments reader_onload {Host} onParsed JSON_parse event_target_result w.
Arguments handleFileUpload {Host} onParsed JSON_parse file w.
Arguments handlePaste {Host} onParsed JSON_parse clipboard w.
Arguments handleLoadSample {Host} onParsed sampleData JSON_stringify w.
Arguments worker_turn {Host} JSON_parse id w.
Arguments main_turn {Host} onParsed id w.
Arguments step {Host} onParsed sampleData JSON_parse JSON_stringify a w.
Arguments run {Host} onParsed sampleData JSON_parse JSON_stringify actions w.
Arguments mount {Host} h.

(** Observers of the log. *)
Definition is_decode (e : Event) : bool :=
  match e with
  | Decoded _ _ => true
  | _ => false
  end.

Definition is_main_decode (e : Event) : bool :=
  match e with
  | Decoded MainThread _ => true
  | _ => false
  end.

Definition is_onParsed (e : Event) : bool :=
  match e with
  | OnParsed _ => true
  | _ => false
  end.

(** Keystrokes and the passing of time. *)
Definition quiet (a : Action) : bool :=
  match a with
  | Type_ _ | Elapse _ => true
  | _ => false
  end.

Definition is_dispatch (e : Event) : bool :=
  match e with
  | Spawned _ | Posted _ _ => true
  | _ => false
  end.

Definition replies_of (id : nat) (l : list Event) : list Worker.Reply :=
  omap (fun e => match e with
                 | Replied id' r => if Nat.eqb id id' then Some r else None
                 | _ => None
                 end) l.

End JsonInput.

(** ** components/VirtualTable.jsx: the windowed renderer *)

Module VirtualTable.
Import Js.

Record Column : Type := mkColumn {
  key : string;
  label : string;
  width : option string;
  render : option (value -> value -> value)
}.

(** The element tree a render returns.  [Row] of a list is the function the
    list calls for each index it mounts, with the [style] that places the
    row; it has no element when the cell read throws. *)
Inductive Element : Type :=
| Div (className : string) (style : option string) (children : list Element)
| Text (s : string)
| Expr (v : value)
| FixedSizeList (height : Z) (itemCount : value) (itemSize : Z)
                (Row : nat -> option string -> option Element).

Definition cell_style (col : Column) : option string :=
  match width col with
  | Some w => Some ("flex: 0 0 " +:+ w)
  | None => None
  end.

(** [data[index][col.key]], through [col.render] when the column has one. *)
Definition cell (data : value) (index : nat) (col : Column) : option Element :=
  match get (Js.index data index) (key col) with
  | None => None
  | Some v =>
      Some (Div "flex-1 px-4 py-2 text-sm text-gray-300 truncate"
              (cell_style col)
              [Expr (match render col with
                     | Some f => f v (Js.index data index)
                     | None => v
                     end)])
  end.

Definition Row (data : value) (columns : list Column) (index : nat)
    (style : option string) : option Element :=
  cells ← mapM (cell data index) columns;
  Some (Div ("flex items-center border-b border-gray-800 " +:+
             (if Nat.even index then "bg-gray-900/50" else "bg-gray-950/50"))
          style cells).

Definition headerRow (columns : list Column) : Element :=
  Div "flex bg-gray-800/80 border-b border-gray-700 sticky top-0 z-10" None
    (map (fun col =>
            Div "flex-1 px-4 py-3 text-xs font-semibold text-gray-400 uppercase tracking-wider"
              (cell_style col) [Text (label col)])
         columns).

Definition placeholder : Element :=
  Div "text-center py-12 text-gray-500" None [Text "No data to display"].

(** [!data || data.length === 0]. *)
Definition no_data (data : value) : bool :=
  negb (truthy data) ||
  match get data "length" with
  | Some (VNum 0) => true
  | _ => false
  end.

(** The component; [height] and [itemSize] default to 400 and 44.  [None]: the
    render throws, which [data.length.toLocaleString()] does when [data] has
    no length. *)
Definition VirtualTable (data : value) (columns : list Column)
    (height itemSize : option Z) : option Element :=
  let height := default 400 height in
  let itemSize := default 44 itemSize in
  if no_data data then Some placeholder
  else
    n ← get data "length";
    if nullish n then None
    else
      Some (Div "rounded-lg border border-gray-800 overflow-hidden" None
              [ headerRow columns;
                FixedSizeList height n itemSize (Row data columns);
                Div "px-4 py-2 bg-gray-900/50 border-t border-gray-800 text-xs text-gray-500"
                  None [Expr n; Text " rows"] ]).

(** [Math.ceil(a / b)] for a positive [b]. *)
Definition ceil_div (a b : Z) : Z := (a + b - 1) / b.

Definition to_count (v : value) : Z :=
  match v with
  | VNum n => n
  | _ => 0
  end.

(** Modelled from the spec: the list is react-window's [FixedSizeList], a
    dependency that is not among the sources.  It shows "exactly the rows
    currently within viewportHeight, plus a small overscan margin": row [i]
    covers the pixels from [i * itemSize] up to [(i + 1) * itemSize], the
    viewport those from [scrollOffset] up to [scrollOffset + height]; the rows
    that meet the viewport are mounted, and [overscan] more rows on each side,
    as far as the collection goes. *)
Definition first_visible (itemSize scrollOffset : Z) : Z :=
  scrollOffset / itemSize.

Definition last_visible (height itemSize scrollOffset : Z) : Z :=
  ceil_div (scrollOffset + height) itemSize - 1.

Definition window_start (itemSize overscan scrollOffset : Z) : Z :=
  Z.max 0 (first_visible itemSize scrollOffset - overscan).

Definition window_stop (itemCount height itemSize overscan scrollOffset : Z) : Z :=
  Z.min (itemCount - 1) (last_visible height itemSize scrollOffset + overscan).

(** Modelled from the spec: the indices of the rows that are mounted. *)
Definition window (itemCount height itemSize overscan scrollOffset : Z) : list Z :=
  let start := window_start itemSize overscan scrollOffset in
  let stop := window_stop itemCount height itemSize overscan scrollOffset in
  seqZ start (stop - start + 1).

(** The row slots an element tree keeps mounted at a scroll position. *)
Fixpoint slots (overscan scrollOffset : Z) (el : Element) : list Z :=
  match el with
  | Div _ _ children => concat (map (slots overscan scrollOffset) children)
  | Text _ | Expr _ => []
  | FixedSizeList height itemCount itemSize _ =>
      window (to_count itemCount) height itemSize overscan scrollOffset
  end.

(** The scroll positions a list of [itemCount] rows can be at. *)
Definition scrollable (itemCount height itemSize scrollOffset : Z) : Prop :=
  0 <= scrollOffset <= Z.max 0 (itemCount * itemSize - height).

(** How many lists, and how many texts, a tree holds. *)
Fixpoint lists (el : Element) : nat :=
  match el with
  | Div _ _ children => list_sum (map lists children)
  | Text _ | Expr _ => 0%nat
  | FixedSizeList _ _ _ _ => 1%nat
  end.

Fixpoint texts (el : Element) : list string :=
  match el with
  | Div _ _ children => concat (map texts children)
  | Text s => [s]
  | Expr _ => []
  | FixedSizeList _ _ _ _ => []
  end.

(** Sample rows and columns (TransactionParser's). *)
Definition columns : list Column :=
  [ {| key := "date"; label := "Date"; width := Some "220px"; render := None |};
    {| key := "amount"; label := "Amount"; width := Some "120px"; render := None |};
    {| key := "ceiling"; label := "Ceiling"; width := Some "120px"; render := None |};
    {| key := "remanent"; label := "Remanent"; width := Some "120px"; render := None |} ].

Definition sample_row : value :=
  VObj [("date", VStr "2023-10-12 20:15:00"); ("amount", VNum 250);
        ("ceiling", VNum 300); ("remanent", VNum 50)].

Definition million : value := VArr (repeat sample_row (Z.to_nat 1000000)).

End VirtualTable.

(** ** The pages that call the remote service *)

Module Pages.
Import Js.

(** A toast's text: a value, or a template literal with its holes. *)
Inductive Message : Type :=
| Plain (v : value)
| Template (parts : list (string + value)).

Inductive Toast : Type :=
| toast_success (m : Message)
| toast_error (m : Message).

(** What a [catch] can receive: the rejection of a request, or a TypeError
    raised by the code of the [try] block itself. *)
Inductive Thrown : Type :=
| AxiosError (e : Api.Error)
| TypeError (message : string).

(** How an awaited promise settles. *)
Inductive Settled (A : Type) : Type :=
| Fulfilled (a : A)
| Failed (e : Thrown).
Arguments Fulfilled {A} a.
Arguments Failed {A} e.

Definition settled (r : Api.Result) : Settled Api.Response :=
  match r with
  | Api.Resolved response => Fulfilled response
  | Api.Rejected e => Failed (AxiosError e)
  end.

(** [Promise.all([nps, index])]: both answers, or the rejection that came
    first. *)
Definition Promise_all (nps index : Api.Result) (index_first : bool)
  : Settled (Api.Response * Api.Response) :=
  match nps, index with
  | Api.Resolved a, Api.Resolved b => Fulfilled (a, b)
  | Api.Rejected e, Api.Resolved _ => Failed (AxiosError e)
  | Api.Resolved _, Api.Rejected e => Failed (AxiosError e)
  | Api.Rejected e1, Api.Rejected e2 =>
      Failed (AxiosError (if index_first then e2 else e1))
  end.

(** The store, the toasts on screen, and the [useState] cells of the pages. *)
Record UI : Type := mkUI {
  store : AppStore.State;
  toasts : list Toast;
  expenses : value;          (* TransactionParser *)
  parser_result : value;
  wage : value;              (* TransactionValidator *)
  validator_result : value;
  filterConfig : value;      (* TemporalFilter *)
  filter_result : value;
  inputData : value;         (* ReturnsCalculator *)
  npsResult : value;
  indexResult : value
}.

(** State with exceptions. *)
Definition T (A : Type) : Type := UI -> UI * (A + Thrown).

Definition ret {A : Type} (a : A) : T A := fun ui => (ui, inl a).

Definition bind {A B : Type} (m : T A) (k : A -> T B) : T B :=
  fun ui => match m ui with
            | (ui', inl a) => k a ui'
            | (ui', inr e) => (ui', inr e)
            end.

#[local] Instance T_ret : MRet T := @ret.
#[local] Instance T_bind : MBind T := fun A B k m => bind m k.

Definition throw {A : Type} (e : Thrown) : T A := fun ui => (ui, inr e).

(** [try { body } catch (err) { handler } finally { final }]. *)
Definition try_catch_finally (body : T unit) (handler : Thrown -> T unit)
    (final : T unit) : T unit :=
  fun ui =>
    let '(ui1, r1) := body ui in
    let '(ui2, r2) := match r1 with
                      | inl _ => (ui1, inl tt)
                      | inr err => handler err ui1
                      end in
    let '(ui3, r3) := final ui2 in
    (ui3, match r3 with
          | inr e => inr e
          | inl _ => r2
          end).

Definition await {A : Type} (p : Settled A) : T A :=
  match p with
  | Fulfilled a => ret a
  | Failed e => throw e
  end.

(** [v.k] where a TypeError is possible. *)
Definition prop (v : value) (k : string) : T value :=
  match get v k with
  | Some x => ret x
  | None => throw (TypeError ("Cannot read properties of null or undefined (reading '" +:+ k +:+ "')"))
  end.

Definition in_store (f : AppStore.State -> AppStore.State) : T unit :=
  fun ui =>
    ({| store := f (store ui); toasts := toasts ui; expenses := expenses ui;
        parser_result := parser_result ui; wage := wage ui;
        validator_result := validator_result ui;
        filterConfig := filterConfig ui; filter_result := filter_result ui;
        inputData := inputData ui; npsResult := npsResult ui;
        indexResult := indexResult ui |}, inl tt).

Definition toast (t : Toast) : T unit :=
  fun ui =>
    ({| store := store ui; toasts := toasts ui ++ [t]; expenses := expenses ui;
        parser_result := parser_result ui; wage := wage ui;
        validator_result := validator_result ui;
        filterConfig := filterConfig ui; filter_result := filter_result ui;
        inputData := inputData ui; npsResult := npsResult ui;
        indexResult := indexResult ui |}, inl tt).

Definition the {A : Type} (f : UI -> A) : T A := fun ui => (ui, inl (f ui)).

(** [err.response?.data?.detail]. *)
Definition detail (err : Thrown) : value :=
  match err with
  | AxiosError e =>
      match Api.err_response e with
      | Some response => get_opt (Api.body response) "detail"
      | None => VUndefined
      end
  | TypeError _ => VUndefined
  end.

Definition setLoading (key : string) (val : bool) : T unit :=
  in_store (AppStore.setLoading key (VBool val)).

(** *** TransactionParser *)

Definition handleParsed (data : value) (ui : UI) : UI :=
  {| store := store ui; toasts := toasts ui; expenses := data;
     parser_result := parser_result ui; wage := wage ui;
     validator_result := validator_result ui;
     filterConfig := filterConfig ui; filter_result := filter_result ui;
     inputData := inputData ui; npsResult := npsResult ui;
     indexResult := indexResult ui |}.

Definition setResult_parser (data : value) : T unit :=
  fun ui =>
    ({| store := store ui; toasts := toasts ui; expenses := expenses ui;
        parser_result := data; wage := wage ui;
        validator_result := validator_result ui;
        filterConfig := filterConfig ui; filter_result := filter_result ui;
        inputData := inputData ui; npsResult := npsResult ui;
        indexResult := indexResult ui |}, inl tt).

(** [handleSubmit] up to its [await]: the argument of
    [transactionAPI.parse] when the request goes out. *)
Definition handleSubmit_begin : T (option value) :=
  expenses ← the expenses;
  if negb (truthy expenses) then ret None
  else
    setLoading "parse" true;;
    ret (Some expenses).

(** [handleSubmit] from the moment the request has settled. *)
Definition handleSubmit_resume (request : Api.Result) : T unit :=
  try_catch_finally
    (response ← await (settled request);
     let data := Api.body response in
     setResult_parser data;;
     in_store (AppStore.setTransactions data);;
     n ← prop data "length";
     toast (toast_success (Template [inl "Parsed "; inr n; inl " transactions"])))
    (fun err =>
       toast (toast_error (Plain (or_else (detail err) (VStr "Failed to parse")))))
    (setLoading "parse" false).

(** *** TransactionValidator *)

Definition setResult_validator (data : value) : T unit :=
  fun ui =>
    ({| store := store ui; toasts := toasts ui; expenses := expenses ui;
        parser_result := parser_result ui; wage := wage ui;
        validator_result := data;
        filterConfig := filterConfig ui; filter_result := filter_result ui;
        inputData := inputData ui; npsResult := npsResult ui;
        indexResult := indexResult ui |}, inl tt).

Definition handleValidate_begin : T (option value) :=
  transactions ← the (fun ui => AppStore.transactions (store ui));
  n ← prop transactions "length";
  if negb (truthy n) then
    toast (toast_error (Plain (VStr "Parse expenses first")));;
    ret None
  else
    setLoading "validate" true;;
    wage ← the wage;
    ret (Some (VObj [("wage", wage); ("transactions", transactions)])).

Definition handleValidate_resume (request : Api.Result) : T unit :=
  try_catch_finally
    (response ← await (settled request);
     let data := Api.body response in
     setResult_validator data;;
     valid ← prop data "valid";
     invalid ← prop data "invalid";
     in_store (AppStore.setValidationResult
                 (or_else valid (VArr [])) (or_else invalid (VArr [])));;
     toast (toast_success (Template
       [inr (get_opt (or_else valid (VArr [])) "length"); inl " valid, ";
        inr (get_opt (or_else invalid (VArr [])) "length"); inl " invalid"])))
    (fun err =>
       toast (toast_error (Plain (or_else (detail err) (VStr "Validation failed")))))
    (setLoading "validate" false).

(** *** TemporalFilter *)

Definition setResult_filter (data : value) : T unit :=
  fun ui =>
    ({| store := store ui; toasts := toasts ui; expenses := expenses ui;
        parser_result := parser_result ui; wage := wage ui;
        validator_result := validator_result ui;
        filterConfig := filterConfig ui; filter_result := data;
        inputData := inputData ui; npsResult := npsResult ui;
        indexResult := indexResult ui |}, inl tt).

Definition handleFilter_begin : T (option value) :=
  transactions ← the (fun ui => AppStore.transactions (store ui));
  n ← prop transactions "length";
  if negb (truthy n) then
    toast (toast_error (Plain (VStr "Parse expenses first")));;
    ret None
  else
    filterConfig ← the filterConfig;
    if negb (truthy filterConfig) then
      toast (toast_error (Plain (VStr "Enter q/p/k configuration")));;
      ret None
    else
      setLoading "filter" true;;
      ret (Some (VObj (spread filterConfig ++ [("transactions", transactions)]))).

Definition handleFilter_resume (request : Api.Result) : T unit :=
  try_catch_finally
    (response ← await (settled request);
     let data := Api.body response in
     setResult_filter data;;
     in_store (AppStore.setFilterResult data);;
     toast (toast_success (Plain (VStr "Filters applied successfully"))))
    (fun err =>
       toast (toast_error (Plain (or_else (detail err) (VStr "Filter failed")))))
    (setLoading "filter" false).

(** *** ReturnsCalculator *)

Definition setNpsResult (data : value) : T unit :=
  fun ui =>
    ({| store := store ui; toasts := toasts ui; expenses := expenses ui;
        parser_result := parser_result ui; wage := wage ui;
        validator_result := validator_result ui;
        filterConfig := filterConfig ui; filter_result := filter_result ui;
        inputData := inputData ui; npsResult := data;
        indexResult := indexResult ui |}, inl tt).

Definition setIndexResult (data : value) : T unit :=
  fun ui =>
    ({| store := store ui; toasts := toasts ui; expenses := expenses ui;
        parser_result := parser_result ui; wage := wage ui;
        validator_result := validator_result ui;
        filterConfig := filterConfig ui; filter_result := filter_result ui;
        inputData := inputData ui; npsResult := npsResult ui;
        indexResult := data |}, inl tt).

Definition handleCalculate_begin : T (option value) :=
  inputData ← the inputData;
  if negb (truthy inputData) then
    toast (toast_error (Plain (VStr "Enter calculation input first")));;
    ret None
  else
    setLoading "returns" true;;
    ret (Some inputData).

Definition handleCalculate_resume (nps index : Api.Result) (index_first : bool)
  : T unit :=
  try_catch_finally
    (both ← await (Promise_all nps index index_first);
     let '(npsRes, indexRes) := both in
     setNpsResult (Api.body npsRes);;
     setIndexResult (Api.body indexRes);;
     toast (toast_success (Plain (VStr "Returns calculated"))))
    (fun err =>
       toast (toast_error (Plain (or_else (detail err) (VStr "Calculation failed")))))
    (setLoading "returns" false).

(** *** A whole click, with the transport client in between *)

Section Click.

Variable transport : Api.Transport.

(** A handler with one request: the part before the [await], the request
    through the transport client, the part after.  [None]: the request ran
    out of fuel. *)
Definition click (begin : T (option value))
    (call : Api.Transport -> nat -> value -> Api.M Api.Result)
    (resume : Api.Result -> T unit) (fuel : nat) (ui : UI)
  : option (UI * (unit + Thrown)) :=
  match begin ui with
  | (ui1, inl (Some payload)) =>
      match call transport fuel payload Api.start with
      | Some (request, _) => Some (resume request ui1)
      | None => None
      end
  | (ui1, inl None) => Some (ui1, inl tt)
  | (ui1, inr e) => Some (ui1, inr e)
  end.

Definition handleSubmit : nat -> UI -> option (UI * (unit + Thrown)) :=
  click handleSubmit_begin Api.transactionAPI_parse handleSubmit_resume.

Definition handleValidate : nat -> UI -> option (UI * (unit + Thrown)) :=
  click handleValidate_begin Api.transactionAPI_validate handleValidate_resume.

Definition handleFilter : nat -> UI -> option (UI * (unit + Thrown)) :=
  click handleFilter_begin Api.transactionAPI_filter handleFilter_resume.

End Click.

(** [handleCalculate]: the two requests are started one after the other and
    are in flight together, each with its own configuration object and its
    own retries.  How their attempts interleave on the network is a matter of
    timing, so each request has the outcomes its own attempts meet
    ([nps_net n], [index_net n]: the outcome of its attempt [n]), and
    [index_first] tells which of two rejections [Promise.all] sees first.
    [None]: a request ran out of fuel. *)
Definition handleCalculate (nps_net index_net : Api.Transport)
    (index_first : bool) (fuel : nat) (ui : UI)
  : option (UI * (unit + Thrown)) :=
  match handleCalculate_begin ui with
  | (ui1, inl (Some payload)) =>
      match Api.returnsAPI_nps nps_net fuel payload Api.start,
            Api.returnsAPI_index index_net fuel payload Api.start with
      | Some (nps, _), Some (index, _) =>
          Some (handleCalculate_resume nps index index_first ui1)
      | _, _ => None
      end
  | (ui1, inl None) => Some (ui1, inl tt)
  | (ui1, inr e) => Some (ui1, inr e)
  end.

Definition sampleExpenses : value :=
  VArr [ VObj [("date", VStr "2023-10-12 20:15:00"); ("amount", VNum 250)];
         VObj [("date", VStr "2023-02-28 15:49:00"); ("amount", VNum 375)];
         VObj [("date", VStr "2023-07-01 21:59:00"); ("amount", VNum 620)];
         VObj [("date", VStr "2023-12-17 08:09:00"); ("amount", VNum 480)] ].

Definition fresh : UI :=
  {| store := AppStore.initial; toasts := []; expenses := VNull;
     parser_result := VNull; wage := VNum 50000; validator_result := VNull;
     filterConfig := VNull; filter_result := VNull; inputData := VNull;
     npsResult := VNull; indexResult := VNull |}.

(** The flag a page reads: [loading.key]. *)
Definition loading_flag (key : string) (ui : UI) : value :=
  AppStore.flag key (store ui).

(** A session in which every page has its input: parsed transactions in the
    store, expenses, a filter configuration and a calculation input. *)
Definition ready : UI :=
  {| store := AppStore.setTransactions sampleExpenses AppStore.initial;
     toasts := []; expenses := sampleExpenses; parser_result := VNull;
     wage := VNum 50000; validator_result := VNull;
     filterConfig := VObj [("q", VArr []); ("p", VArr []); ("k", VArr [])];
     filter_result := VNull;
     inputData := VObj [("age", VNum 29); ("wage", VNum 50000)];
     npsResult := VNull; indexResult := VNull |}.

(** *** What the buttons read when a page renders *)

(** TransactionValidator: [disabled={!transactions.length || loading.validate}].
    [None]: the render throws, [transactions] being [null] or [undefined]. *)
Definition validate_disabled (ui : UI) : option bool :=
  match get (AppStore.transactions (store ui)) "length" with
  | Some n => Some (negb (truthy n) || truthy (loading_flag "validate" ui))
  | None => None
  end.

(** TemporalFilter:
    [disabled={!transactions.length || !filterConfig || loading.filter}]. *)
Definition filter_disabled (ui : UI) : option bool :=
  match get (AppStore.transactions (store ui)) "length" with
  | Some n =>
      Some (negb (truthy n) || negb (truthy (filterConfig ui))
            || truthy (loading_flag "filter" ui))
  | None => None
  end.

End Pages.

(** ** A decoder and a parent to run the components on *)

Module Sample.
Import Js.

Fixpoint spaces (n : nat) : string :=
  match n with
  | O => EmptyString
  | S n' => String " "%char (spaces n')
  end.

Fixpoint skip_space (s : string) : string :=
  match s with
  | EmptyString => EmptyString
  | String c rest => if is_space c then skip_space rest else s
  end.

(** A decoder for a few texts, standing in for [JSON.parse] where a concrete
    one is needed: leading white space, then [null], [[]] or [{}]. *)
Definition JSON_parse (text : string) : value + string :=
  let t := skip_space text in
  if String.eqb t "null" then inl VNull
  else if String.eqb t "[]" then inl (VArr [])
  else if String.eqb t "{}" then inl (VObj [])
  else if String.eqb t "" then inr "Unexpected end of JSON input"
  else inr "Unexpected token".

Definition JSON_stringify (v : value) : string :=
  match v with
  | VNull => "null"
  | VArr [] => "[]"
  | VObj [] => "{}"
  | _ => "[...]"
  end.

(** TransactionParser as the parent: [onParsed={handleParsed}]. *)
Definition onParsed (data : value) (ui : Pages.UI) : Pages.UI * option string :=
  (Pages.handleParsed data ui, None).

Definition mounted : JsonInput.World Pages.UI := JsonInput.mount Pages.fresh.

(** A text of 100001 characters that decodes, and one that does not. *)
Definition large_text : string := spaces (Z.to_nat 99999) +:+ "[]".
Definition large_garbage : string := spaces (Z.to_nat 100000) +:+ "]".

End Sample.

(** ** More of the transport client: what a run sends *)

Module Retry.
Import Js Api.

(** The events of a request with configuration [cfg] that goes out as request
    [n] and is retried [k] times, [count] being the number of its first
    retry: each retry writes its number on the configuration, waits, and
    sends the configuration again. *)
Fixpoint events (cfg : Config) (n : nat) (count : Z) (k : nat) : list Event :=
  Sent n cfg ::
  match k with
  | O => []
  | S k' =>
      Slept (1000 * count) ::
      events (set_retryCount count cfg) (S n) (count + 1) k'
  end.

(** The configurations a run sent, in order. *)
Definition configs (t : list Event) : list Config :=
  omap (fun e => match e with Sent _ c => Some c | Slept _ => None end) t.

(** The same request: everything but the retry counter. *)
Definition same_request (a b : Config) : Prop :=
  baseURL a = baseURL b ∧ timeout a = timeout b ∧ url a = url b
  ∧ method a = method b ∧ data a = data b.

(** The configuration [api.post(path, payload)] starts from. *)
Definition request (path : string) (payload : value) : Config :=
  {| baseURL := baseURL create; timeout := timeout create;
     url := path; method := "post"; data := payload; _retryCount := None |}.

Definition total (ms : list Z) : Z := fold_right Z.add 0 ms.

End Retry.

(** ** App.jsx and components/Sidebar.jsx: the navigation shell *)

Module Shell.
Import Js.

(** The lazily loaded pages. *)
Inductive Component : Type :=
| TransactionParser
| TransactionValidator
| TemporalFilter
| ReturnsCalculator
| PerformanceDashboard.

Definition sections : list (string * Component) :=
  [ ("parser", TransactionParser);
    ("validator", TransactionValidator);
    ("filter", TemporalFilter);
    ("returns", ReturnsCalculator);
    ("performance", PerformanceDashboard) ].

Fixpoint lookup_section (key : string) (table : list (string * Component))
  : option Component :=
  match table with
  | [] => None
  | (k, c) :: rest => if String.eqb key k then Some c else lookup_section key rest
  end.

(** [sections[activeSection]] in [App]; [None] is [undefined], with which the
    render fails.  The store holds a string there (the initial ['parser'] and
    the keys [Sidebar] passes); the conversion of other values to property
    keys is not modelled, they find nothing. *)
Definition ActiveComponent (state : AppStore.State) : option Component :=
  match AppStore.activeSection state with
  | VStr key => lookup_section key sections
  | _ => None
  end.

(** [navItems] of Sidebar: key and label. *)
Definition navItems : list (string * string) :=
  [ ("parser", "Parse Expenses");
    ("validator", "Validate");
    ("filter", "Q/P/K Filter");
    ("returns", "Returns");
    ("performance", "Performance") ].

(** [handleClick]. *)
Definition handleClick (key : string) : AppStore.State -> AppStore.State :=
  AppStore.setActiveSection (VStr key).

(** [activeSection === key], which picks the highlighted button. *)
Definition highlighted (state : AppStore.State) (key : string) : bool :=
  match AppStore.activeSection state with
  | VStr k => String.eqb k key
  | _ => false
  end.

Definition clicks (keys : list string) (state : AppStore.State) : AppStore.State :=
  fold_left (fun s key => handleClick key s) keys state.

End Shell.

(** ** components/CopyButton.jsx *)

Module CopyButton.
Import Js.

Section Button.

Variable JSON_stringify : value -> string.

(** The [copied] cell, the timers set by [setTimeout] that have not fired
    yet (the times at which they are due), the time, and what the clipboard
    holds. *)
Record State : Type := mkState {
  copied : bool;
  timers : list Z;
  clock : Z;
  clipboard : option string
}.

(** [typeof text === 'string' ? text : JSON.stringify(text, null, 2)]. *)
Definition payload (text : value) : string :=
  match text with
  | VStr s => s
  | _ => JSON_stringify text
  end.

(** [handleCopy]; [granted] tells whether [navigator.clipboard.writeText]
    succeeds.  A failure is caught and nothing else happens. *)
Definition handleCopy (text : value) (granted : bool) (st : State) : State :=
  if granted then
    {| copied := true; timers := timers st ++ [clock st + 2000];
       clock := clock st; clipboard := Some (payload text) |}
  else st.

(** [ms] milliseconds pass: the timers that are due run [setCopied(false)]. *)
Definition elapse (ms : Z) (st : State) : State :=
  let now := clock st + ms in
  {| copied := if existsb (fun due => due <=? now) (timers st) then false
               else copied st;
     timers := filter (fun due => now < due) (timers st);
     clock := now; clipboard := clipboard st |}.

Definition mount : State :=
  {| copied := false; timers := []; clock := 0; clipboard := None |}.

End Button.

End CopyButton.

(** ** The states the pages are left in *)

Module Outcome.
Import Js Pages.

(** The state a page is left in: new store, one more toast. *)
Definition with_store_and_toast (f : AppStore.State -> AppStore.State)
    (t : Toast) (ui : UI) : UI :=
  {| store := f (store ui); toasts := toasts ui ++ [t];
     expenses := expenses ui; parser_result := parser_result ui;
     wage := wage ui; validator_result := validator_result ui;
     filterConfig := filterConfig ui; filter_result := filter_result ui;
     inputData := inputData ui; npsResult := npsResult ui;
     indexResult := indexResult ui |}.

(** The text of the error toast: [err.response?.data?.detail || fallback]. *)
Definition error_text (e : Api.Error) (fallback : string) : value :=
  or_else (detail (AxiosError e)) (VStr fallback).

(** TemporalFilter with a row in the store and a configuration that has a
    stray [transactions] field. *)
Definition stray_filter : UI :=
  {| store := AppStore.setTransactions (VArr [VirtualTable.sample_row])
                AppStore.initial;
     toasts := []; expenses := VNull; parser_result := VNull;
     wage := VNum 50000; validator_result := VNull;
     filterConfig := VObj [("q", VArr []); ("transactions", VStr "stray")];
     filter_result := VNull; inputData := VNull; npsResult := VNull;
     indexResult := VNull |}.

End Outcome.

(** ** Decoders over a run of the component *)

Module Decoders.
Import Js JsonInput.

(** A decoder has one message outstanding: its request or its reply. *)
Definition one_outstanding (ws : WorkerState) : bool :=
  match ws with
  | Running inbox outbox => (length inbox + length outbox =? 1)%nat
  | Stopped => true
  end.

(** What the log and the worker table say about decoder [id] together: a
    decoder that does not exist has not replied; a live one has one message
    outstanding and its replies so far are the ones still on their way; a
    stopped one has replied once. *)
Definition consistent {Host : Type} (w : World Host) (id : nat) : Prop :=
  match workers w !! id with
  | None => replies_of id (log w) = []
  | Some (Running inbox outbox) =>
      (length inbox + length outbox = 1)%nat
      ∧ replies_of id (log w) = outbox
  | Some Stopped => length (replies_of id (log w)) = 1%nat
  end.

(** A step that is no turn of a worker: it adds no reply to the log, and
    leaves the worker table as it is or adds one decoder with its request. *)
Definition adds_no_reply {Host : Type} (w w' : World Host) : Prop :=
  (∃ evs, log w' = log w ++ evs ∧ ∀ id, replies_of id evs = [])
  ∧ (workers w' = workers w
     ∨ ∃ text, workers w' = workers w ++ [Running [text] []]).

(** A second long text for the sample decoder. *)
Definition large_object : string := Sample.spaces (Z.to_nat 100000) +:+ "{}".

End Decoders.

(** ** The cells of a table row *)

Module Cells.
Import Js VirtualTable.






End Cells.

(** * Theorems *)

(** ** The store *)

Section StoreFacts.
Import Js AppStore.

(** C10: [setLoading k v] replaces entry [k] of the loading map by [v], keeps
    every other entry of that map, and leaves every other slice of the store
    as it was. *)
Theorem setLoading_frame (state : State) (k : string) (v : bool) :
  let state' := setLoading k (VBool v) state in
  loading state' = <[k := VBool v]> (loading state)
  ∧ loading state' !! k = Some (VBool v)
  ∧ (∀ k', k' ≠ k → loading state' !! k' = loading state !! k')
  ∧ transactions state' = transactions state
  ∧ validTransactions state' = validTransactions state
  ∧ invalidTransactions state' = invalidTransactions state
  ∧ filterResult state' = filterResult state
  ∧ npsResult state' = npsResult state
  ∧ indexResult state' = indexResult state
  ∧ activeSection state' = activeSection state
  ∧ performanceMetrics state' = performanceMetrics state
  ∧ extra state' = extra state.
Proof.
  cbn -[insert]. repeat split.
  - apply lookup_insert_eq.
  - intros k' Hk. by apply lookup_insert_ne.
  - apply (left_id_L ∅ (∪)).
Qed.

Lemma flag_setLoading (state : State) (k : string) (v : value) :
  flag k (setLoading k v state) = v.
Proof. unfold flag. cbn -[insert]. by rewrite lookup_insert_eq. Qed.

End StoreFacts.

(** ** The transport client *)

Section ApiFacts.
Import Js Api.

Variable transport : Transport.

Lemma timeline_app (a b : list Event) :
  timeline (a ++ b) = timeline a ++ timeline b.
Proof. apply map_app. Qed.

Lemma api_unfold (fuel : nat) (cfg : Config) (s : Net) :
  api transport (S fuel) cfg s
  = match settle (length (heap s)) (transport (sent s)) with
    | inl response => Some (Resolved response, after_send cfg s)
    | inr error => interceptor (api transport fuel) error (after_send cfg s)
    end.
Proof.
  cbn [api]. unfold mbind, M_bind, bind, dispatch, after_send.
  by destruct (settle _ _).
Qed.

Lemma interceptor_no_config (again : Config → M Result) (error : Error) (s : Net) :
  err_config error = None →
  interceptor again error s = Some (Rejected error, s).
Proof. unfold interceptor. by intros ->. Qed.

Lemma interceptor_own_config (again : Config → M Result) (error : Error)
    (cfg : Config) (s : Net) :
  err_config error = Some (length (heap s)) →
  interceptor again error (after_send cfg s)
  = let count := or0 (_retryCount cfg) + 1 in
    if (count <=? 3) && match err_response error with
                        | None => true
                        | Some r => server_error r
                        end
    then again (set_retryCount count cfg) (before_retry cfg count s)
    else Some (Rejected error, given_up cfg count s).
Proof.
  intros Hc. unfold interceptor. rewrite Hc.
  unfold mbind, M_bind, bind, read, write, sleep, emit, after_send.
  cbn [heap sent trace].
  rewrite lookup_app_r, Nat.sub_diag by lia. cbn [lookup list_lookup].
  cbn [heap sent trace].
  rewrite insert_app_r_alt, Nat.sub_diag by lia. cbn [insert list_insert].
  cbn zeta.
  destruct ((or0 (_retryCount cfg) + 1 <=? 3) && _); cbn [heap sent trace ret].
  - rewrite lookup_app_r, Nat.sub_diag by lia. cbn [lookup list_lookup].
    unfold before_retry. by rewrite <- app_assoc.
  - reflexivity.
Qed.

(** Whether the interceptor retries depends on the failure as [retryable]
    says. *)
Lemma settle_retry_condition (c : loc) (o : NetOutcome) (error : Error) :
  settle c o = inr error →
  (err_config error = Some c
   ∧ match err_response error with
     | None => true
     | Some r => server_error r
     end = retryable o)
  ∨ (err_config error = None ∧ retryable o = false).
Proof.
  destruct o as [r|msg|msg]; cbn.
  - destruct (validateStatus (status r)); [done|].
    intros [= <-]. by left.
  - intros [= <-]. by left.
  - intros [= <-]. by right.
Qed.

Lemma settle_fulfilled (c : loc) (o : NetOutcome) (r : Response) :
  settle c o = inl r → retryable o = false.
Proof.
  destruct o as [r'|msg|msg]; cbn; try done.
  destruct (validateStatus (status r')) eqn:Hv; [|done].
  intros _. unfold validateStatus in Hv. lia.
Qed.

(** A run of [api] on a configuration that has been retried [3 - left] times:
    it sends, and retries while the failure is retryable and retries are
    left; the promise settles as axios settled the last request. *)
Lemma api_run (left : nat) :
  ∀ (fuel : nat) (cfg : Config) (s : Net),
    (left < fuel)%nat → (left ≤ 3)%nat →
    or0 (_retryCount cfg) = 3 - Z.of_nat left →
    ∃ (k : nat) (s' : Net),
      (k ≤ left)%nat
      ∧ api transport fuel cfg s
        = Some (settlement (settle (length (heap s) + k)%nat
                              (transport (sent s + k)%nat)), s')
      ∧ timeline (trace s')
        = timeline (trace s)
          ++ inl (sent s) :: retries (S (sent s)) (4 - Z.of_nat left) k
      ∧ (∀ i, (i < k)%nat → retryable (transport (sent s + i)%nat) = true)
      ∧ ((k < left)%nat → retryable (transport (sent s + k)%nat) = false).
Proof.
  induction left as [|left IH]; intros fuel cfg s Hfuel Hle Hrc;
    (destruct fuel as [|fuel]; [lia|]); rewrite api_unfold.
  - exists 0%nat. rewrite !Nat.add_0_r.
    destruct (settle _ _) as [r|error] eqn:Hs.
    + eexists. split; [lia|]. split; [reflexivity|].
      cbn. rewrite timeline_app. split; [reflexivity|]. split; intros; lia.
    + destruct (settle_retry_condition _ _ _ Hs) as [[Hc Hr]|[Hc Hr]].
      * rewrite (interceptor_own_config _ _ _ _ Hc). cbn zeta. rewrite Hrc.
        destruct (_ <=? 3) eqn:Hcmp; [apply Z.leb_le in Hcmp; lia|]. cbn [andb].
        eexists. split; [lia|]. split; [reflexivity|].
        cbn. rewrite timeline_app. split; [reflexivity|]. split; intros; lia.
      * rewrite (interceptor_no_config _ _ _ Hc).
        eexists. split; [lia|]. split; [reflexivity|].
        cbn. rewrite timeline_app. split; [reflexivity|]. split; intros; lia.
  - destruct (settle _ _) as [r|error] eqn:Hs.
    + exists 0%nat. rewrite !Nat.add_0_r, Hs. eexists.
      split; [lia|]. split; [reflexivity|].
      cbn. rewrite timeline_app. split; [reflexivity|].
      split; [intros; lia|]. intros _. by eapply settle_fulfilled.
    + destruct (settle_retry_condition _ _ _ Hs) as [[Hc Hr]|[Hc Hr]].
      * rewrite (interceptor_own_config _ _ _ _ Hc). cbn zeta. rewrite Hrc, Hr.
        destruct (_ <=? 3) eqn:Hcmp; [|apply Z.leb_gt in Hcmp; lia]. cbn [andb].
        destruct (retryable (transport (sent s))) eqn:Hretry.
        -- destruct (IH fuel (set_retryCount (3 - Z.of_nat (S left) + 1) cfg)
                       (before_retry cfg (3 - Z.of_nat (S left) + 1) s))
             as (k & s' & Hk & Hrun & Htl & Hall & Hstop);
             [lia | lia | cbn; lia |].
           exists (S k), s'. split; [lia|].
           cbn [before_retry heap sent trace] in *.
           rewrite Hrun. rewrite length_app. cbn [length].
           replace (length (heap s) + 1 + k)%nat with (length (heap s) + S k)%nat by lia.
           replace (S (sent s) + k)%nat with (sent s + S k)%nat in * by lia.
           split; [reflexivity|].
           split.
           { rewrite Htl, timeline_app. cbn [timeline map retries].
             rewrite <- app_assoc. cbn [app].
             repeat f_equal; lia. }
           split.
           { intros [|i] Hi; [by rewrite Nat.add_0_r|].
             replace (sent s + S i)%nat with (S (sent s) + i)%nat by lia.
             apply Hall. lia. }
           intros Hlt. apply Hstop. lia.
        -- exists 0%nat. rewrite !Nat.add_0_r, Hs. eexists.
           split; [lia|]. split; [reflexivity|].
           cbn. rewrite timeline_app. split; [reflexivity|].
           split; [intros; lia|done].
      * rewrite (interceptor_no_config _ _ _ Hc).
        exists 0%nat. rewrite !Nat.add_0_r, Hs. eexists.
        split; [lia|]. split; [reflexivity|].
        cbn. rewrite timeline_app. split; [reflexivity|].
        split; [intros; lia|done].
Qed.

Lemma delays_timeline (t : list Event) :
  delays t = omap (λ x, match x with inr ms => Some ms | inl _ => None end)
               (timeline t).
Proof.
  induction t as [|[n c|ms] t IH]; cbn; [done| |]; unfold delays in IH;
    by rewrite IH.
Qed.

Lemma requests_timeline (t : list Event) :
  requests t = omap (λ x, match x with inl n => Some n | inr _ => None end)
                 (timeline t).
Proof.
  induction t as [|[n c|ms] t IH]; cbn; [done| |]; unfold requests in IH;
    by rewrite IH.
Qed.

(** C2: a request retries after a network failure or a status of 500 or
    more, at most three times, waiting 1000 ms times the number of the retry
    before it; any other outcome (a 2xx answer, a 4xx error) ends the run at
    once.  [k] is the number of retries made. *)
Theorem retry_policy (fuel : nat) (path : string) (payload : value) :
  (4 ≤ fuel)%nat →
  ∃ (k : nat) (net : Net),
    (k ≤ 3)%nat
    ∧ post transport fuel path payload start
      = Some (settlement (settle k (transport k)), net)
    ∧ timeline (trace net) = schedule k
    ∧ requests (trace net) = seq 0 (S k)
    ∧ delays (trace net) = take k [1000; 2000; 3000]
    ∧ (∀ i, (i < k)%nat → retryable (transport i) = true)
    ∧ ((k < 3)%nat → retryable (transport k) = false).
Proof.
  intros Hfuel. unfold post.
  destruct (api_run 3 fuel
              {| baseURL := baseURL create; timeout := timeout create;
                 url := path; method := "post"; data := payload;
                 _retryCount := None |} start)
    as (k & net & Hk & Hrun & Htl & Hall & Hstop); [lia | lia | done |].
  exists k, net. cbn in Hrun, Htl, Hall, Hstop.
  repeat split; try done.
  - rewrite requests_timeline, Htl.
    destruct k as [|[|[|[|k]]]]; [done..|lia].
  - rewrite delays_timeline, Htl.
    destruct k as [|[|[|[|k]]]]; [done..|lia].
Qed.

(** C8: when the three retries are used up, the promise rejects with the
    very error object axios raised for the last request (the fourth): the
    interceptor passes it on as it is, it builds no error of its own. *)
Theorem exhausted_retries_reject_with_raised_error
    (fuel : nat) (path : string) (payload : value) :
  (4 ≤ fuel)%nat →
  (∀ i, (i < 4)%nat → retryable (transport i) = true) →
  ∃ (error : Error) (net : Net),
    post transport fuel path payload start = Some (Rejected error, net)
    ∧ settle 3%nat (transport 3%nat) = inr error
    ∧ err_response error
      = match transport 3%nat with
        | Responded r => Some r
        | _ => None
        end
    ∧ requests (trace net) = [0; 1; 2; 3]%nat.
Proof.
  intros Hfuel Hfail. unfold post.
  destruct (api_run 3 fuel
              {| baseURL := baseURL create; timeout := timeout create;
                 url := path; method := "post"; data := payload;
                 _retryCount := None |} start)
    as (k & net & Hk & Hrun & Htl & Hall & Hstop); [lia | lia | done |].
  cbn in Hrun, Htl, Hall, Hstop.
  assert (k = 3%nat) as ->.
  { destruct (decide (k < 3)%nat) as [Hlt|]; [|lia].
    rewrite Hfail in Hstop by lia. by specialize (Hstop Hlt). }
  pose proof (Hfail 3%nat ltac:(lia)) as H3.
  destruct (settle 3%nat (transport 3%nat)) as [r|error] eqn:Hs.
  { apply settle_fulfilled in Hs. congruence. }
  exists error, net. repeat split; try done.
  - destruct (transport 3%nat) as [r|msg|msg]; cbn in Hs, H3 |- *.
    + destruct (validateStatus (status r)); [done|]. by injection Hs as <-.
    + by injection Hs as <-.
    + done.
  - by rewrite requests_timeline, Htl.
Qed.

End ApiFacts.

(** Two answers with status 500, then a 200: three requests, pauses of one
    and two seconds, and the promise resolves. *)
Example fails_twice_then_succeeds :
  option_map (λ '(r, net), (r, Api.requests (Api.trace net), Api.delays (Api.trace net)))
    (Api.post Api.fails_twice 4 "/transactions:parse" Js.VNull Api.start)
  = Some (Api.Resolved {| Api.status := 200; Api.body := Js.VArr [] |},
          [0; 1; 2]%nat, [1000; 2000]).
Proof. reflexivity. Qed.

(** A server that always answers 400: one request, no pause, rejection. *)
Example always_400_rejects_at_once :
  option_map (λ '(r, net), (r, Api.requests (Api.trace net), Api.delays (Api.trace net)))
    (Api.post (Api.always 400) 4 "/transactions:parse" Js.VNull Api.start)
  = Some (Api.Rejected
            {| Api.err_config := Some 0%nat;
               Api.err_response := Some {| Api.status := 400; Api.body := Js.VNull |};
               Api.err_message := "Request failed" |},
          [0]%nat, []).
Proof. reflexivity. Qed.

(** The retry policy at a server that always answers 400. *)
Lemma retry_policy_witness :
  (4 ≤ 4)%nat
  ∧ ∃ (k : nat) (net : Api.Net),
      (k ≤ 3)%nat
      ∧ Api.post (Api.always 400) 4 "/transactions:parse" Js.VNull Api.start
        = Some (Api.settlement (Api.settle k (Api.always 400 k)), net)
      ∧ Api.timeline (Api.trace net) = Api.schedule k
      ∧ Api.requests (Api.trace net) = seq 0 (S k)
      ∧ Api.delays (Api.trace net) = take k [1000; 2000; 3000]
      ∧ (∀ i, (i < k)%nat → Api.retryable (Api.always 400 i) = true)
      ∧ ((k < 3)%nat → Api.retryable (Api.always 400 k) = false).
Proof.
  split; [lia|].
  apply (retry_policy (Api.always 400) 4 "/transactions:parse" Js.VNull). lia.
Defined.

(** Exhausted retries while off line. *)
Lemma exhausted_retries_witness :
  (4 ≤ 4)%nat
  ∧ (∀ i, (i < 4)%nat → Api.retryable (Api.offline i) = true)
  ∧ ∃ (error : Api.Error) (net : Api.Net),
      Api.post Api.offline 4 "/transactions:parse" Js.VNull Api.start
      = Some (Api.Rejected error, net)
      ∧ Api.settle 3%nat (Api.offline 3%nat) = inr error
      ∧ Api.err_response error
        = match Api.offline 3%nat with
          | Api.Responded r => Some r
          | _ => None
          end
      ∧ Api.requests (Api.trace net) = [0; 1; 2; 3]%nat.
Proof.
  split; [lia|]. split; [intros; reflexivity|].
  apply (exhausted_retries_reject_with_raised_error Api.offline 4
           "/transactions:parse" Js.VNull); [lia | intros; reflexivity].
Defined.

(** ** The ingestion controller and the background decoder *)

Section IngestionFacts.
Import Js JsonInput.

Context {Host : Type}.
Variable onParsed : value → Host → Host * option string.
Variable sampleData : value.
Variable JSON_parse : string → value + string.
Variable JSON_stringify : value → string.

#[local] Abbreviation parseJSON := (parseJSON onParsed JSON_parse).
#[local] Abbreviation parseWithWorker := (parseWithWorker onParsed JSON_parse).
#[local] Abbreviation worker_turn := (worker_turn JSON_parse).
#[local] Abbreviation main_turn := (main_turn onParsed).
#[local] Abbreviation worker_onmessage := (worker_onmessage onParsed).

Lemma parseWithWorker_small (text : string) (w : World Host) :
  Z.of_nat (String.length text) ≤ 100000 →
  parseWithWorker text w = parseJSON text w.
Proof.
  intros Hlen. unfold JsonInput.parseWithWorker.
  destruct (100000 <? _) eqn:Hc; [lia|done].
Qed.

Lemma parseWithWorker_large (text : string) (w : World Host) :
  100000 < Z.of_nat (String.length text) →
  parseWithWorker text w
  = {| rawText := rawText w; error := error w;
       debouncedText := debouncedText w; pending := pending w;
       clock := clock w; host := host w;
       workers := workers w ++ [Running [text] []];
       log := log w ++ [Spawned (length (workers w));
                        Posted (length (workers w)) text] |}.
Proof.
  intros Hlen. unfold JsonInput.parseWithWorker.
  destruct (100000 <? _) eqn:Hc; [|lia].
  unfold postMessage, note, setWorkers. cbn [workers log rawText error debouncedText pending clock host].
  rewrite lookup_app_r, Nat.sub_diag by lia. cbn [lookup list_lookup].
  rewrite insert_app_r_alt, Nat.sub_diag by lia. cbn [insert list_insert app].
  by rewrite <- app_assoc.
Qed.

Lemma parseJSON_spec (text : string) (w : World Host) :
  parseJSON text w
  = match JSON_parse text with
    | inl parsed =>
        {| rawText := rawText w;
           error := (onParsed parsed (host w)).2;
           debouncedText := debouncedText w; pending := pending w;
           clock := clock w; host := (onParsed parsed (host w)).1;
           workers := workers w;
           log := log w ++ [Decoded MainThread text; OnParsed parsed] |}
    | inr message =>
        {| rawText := rawText w; error := Some message;
           debouncedText := debouncedText w; pending := pending w;
           clock := clock w; host := host w; workers := workers w;
           log := log w ++ [Decoded MainThread text] |}
    end.
Proof.
  unfold JsonInput.parseJSON, call_onParsed, note, setError, setHost.
  cbn [workers log rawText error debouncedText pending clock host].
  destruct (JSON_parse text) as [parsed|message]; [|done].
  destruct (onParsed parsed (host w)) as [h [thrown|]]; cbn;
    by rewrite <- app_assoc.
Qed.

(** C1: a text of at most 100000 characters is decoded inside the call, on
    the main thread, and [onParsed] receives exactly what [JSON.parse] returns
    for it, or the error shows the decoder's message; a longer text is not
    decoded by the call: a new worker is created and the text is posted to
    it. *)
Theorem size_policy (text : string) (w : World Host) :
  let w' := parseWithWorker text w in
  (Z.of_nat (String.length text) ≤ 100000 →
     w' = parseJSON text w
     ∧ workers w' = workers w
     ∧ match JSON_parse text with
       | inl parsed =>
           log w' = log w ++ [Decoded MainThread text; OnParsed parsed]
           ∧ host w' = (onParsed parsed (host w)).1
           ∧ error w' = (onParsed parsed (host w)).2
       | inr message =>
           log w' = log w ++ [Decoded MainThread text]
           ∧ host w' = host w
           ∧ error w' = Some message
       end)
  ∧ (100000 < Z.of_nat (String.length text) →
     log w' = log w ++ [Spawned (length (workers w));
                        Posted (length (workers w)) text]
     ∧ workers w' = workers w ++ [Running [text] []]
     ∧ filter is_main_decode (log w') = filter is_main_decode (log w)
     ∧ host w' = host w
     ∧ error w' = error w).
Proof.
  cbn zeta. split; intros Hlen.
  - rewrite parseWithWorker_small by done. split; [done|].
    rewrite parseJSON_spec. by destruct (JSON_parse text).
  - rewrite parseWithWorker_large by done. cbn.
    repeat split. rewrite filter_app. cbn. by rewrite app_nil_r.
Qed.

Lemma worker_turn_pending (id : nat) (text : string) (inbox : list string)
    (outbox : list Worker.Reply) (w : World Host) :
  workers w !! id = Some (Running (text :: inbox) outbox) →
  worker_turn id w
  = let reply := match JSON_parse text with
                 | inl parsed => Worker.Success parsed
                 | inr message => Worker.Failure message
                 end in
    {| rawText := rawText w; error := error w;
       debouncedText := debouncedText w; pending := pending w;
       clock := clock w; host := host w;
       workers := <[id := Running inbox (outbox ++ [reply])]> (workers w);
       log := log w ++ [Decoded (InWorker id) text; Replied id reply] |}.
Proof.
  intros Hw. unfold JsonInput.worker_turn. rewrite Hw.
  unfold Worker.onmessage, note, setWorkers.
  destruct (JSON_parse text); cbn; by rewrite <- app_assoc.
Qed.

Lemma main_turn_reply (id : nat) (reply : Worker.Reply) (inbox : list string)
    (outbox : list Worker.Reply) (w : World Host) :
  workers w !! id = Some (Running inbox (reply :: outbox)) →
  main_turn id w
  = worker_onmessage id reply
      (setWorkers (<[id := Running inbox outbox]> (workers w)) w).
Proof. intros Hw. unfold JsonInput.main_turn. by rewrite Hw. Qed.

Lemma worker_onmessage_failure (id : nat) (message : string) (w : World Host) :
  worker_onmessage id (Worker.Failure message) w
  = {| rawText := rawText w; error := Some message;
       debouncedText := debouncedText w; pending := pending w;
       clock := clock w; host := host w;
       workers := <[id := Stopped]> (workers w);
       log := log w ++ [Terminated id] |}.
Proof. reflexivity. Qed.

Lemma worker_onmessage_success (id : nat) (data : value) (w : World Host) :
  worker_onmessage id (Worker.Success data) w
  = {| rawText := rawText w; error := None;
       debouncedText := debouncedText w; pending := pending w;
       clock := clock w; host := (onParsed data (host w)).1;
       workers := <[id := Stopped]> (workers w);
       log := log w ++ [Terminated id; OnParsed data] |}.
Proof.
  unfold JsonInput.worker_onmessage, call_onParsed, terminate, note, setError,
    setHost, setWorkers.
  cbn [workers log rawText error debouncedText pending clock host].
  destruct (onParsed data (host w)) as [h thrown]. cbn.
  by rewrite <- app_assoc.
Qed.

Lemma worker_turn_idle (id : nat) (outbox : list Worker.Reply) (w : World Host) :
  workers w !! id = Some (Running [] outbox) → worker_turn id w = w.
Proof. intros Hw. unfold JsonInput.worker_turn. by rewrite Hw. Qed.

Lemma turn_stopped (id : nat) (w : World Host) :
  workers w !! id = Some Stopped →
  worker_turn id w = w ∧ main_turn id w = w.
Proof.
  intros Hw. unfold JsonInput.worker_turn, JsonInput.main_turn.
  by rewrite Hw.
Qed.

(** A large decode from the call to the delivery of the reply. *)
Lemma large_decode_run (text : string) (w : World Host) :
  100000 < Z.of_nat (String.length text) →
  let id := length (workers w) in
  let reply := match JSON_parse text with
               | inl parsed => Worker.Success parsed
               | inr message => Worker.Failure message
               end in
  let w1 := parseWithWorker text w in
  let w2 := worker_turn id w1 in
  let w3 := main_turn id w2 in
  workers w1 = workers w ++ [Running [text] []]
  ∧ workers w2 = workers w ++ [Running [] [reply]]
  ∧ log w2 = log w1 ++ [Decoded (InWorker id) text; Replied id reply]
  ∧ host w2 = host w ∧ error w2 = error w
  ∧ w3 = worker_onmessage id reply
           (setWorkers (workers w ++ [Running [] []]) w2)
  ∧ workers w3 = workers w ++ [Stopped].
Proof.
  intros Hlen. cbn zeta.
  rewrite parseWithWorker_large by done.
  erewrite worker_turn_pending; last first.
  { cbn [workers]. by rewrite lookup_app_r, Nat.sub_diag by lia. }
  cbn [workers log rawText error debouncedText pending clock host app].
  rewrite insert_app_r_alt, Nat.sub_diag by lia. cbn [insert list_insert].
  erewrite main_turn_reply; last first.
  { cbn [workers]. by rewrite lookup_app_r, Nat.sub_diag by lia. }
  cbn [workers log rawText error debouncedText pending clock host app].
  rewrite insert_app_r_alt, Nat.sub_diag by lia. cbn [insert list_insert].
  repeat split.
  destruct (JSON_parse text) as [parsed|message].
  - rewrite worker_onmessage_success. cbn [workers setWorkers].
    by rewrite insert_app_r_alt, Nat.sub_diag by lia.
  - rewrite worker_onmessage_failure. cbn [workers setWorkers].
    by rewrite insert_app_r_alt, Nat.sub_diag by lia.
Qed.


Lemma large_decode_success (text : string) (parsed : value) (w : World Host) :
  JSON_parse text = inl parsed →
  100000 < Z.of_nat (String.length text) →
  let id := length (workers w) in
  let w1 := parseWithWorker text w in
  let w3 := main_turn id (worker_turn id w1) in
  log w1 = log w ++ [Spawned id; Posted id text]
  ∧ host w1 = host w
  ∧ host w3 = (onParsed parsed (host w)).1
  ∧ error w3 = None
  ∧ workers w3 = workers w ++ [Stopped].
Proof.
  intros Hok Hlen.
  destruct (large_decode_run text w Hlen)
    as (Hw1 & Hw2 & Hlog & Hhost & Herr & Hw3 & Hstop).
  rewrite Hok in Hw3. cbn zeta in *. rewrite Hw3, worker_onmessage_success.
  cbn [error host log workers setWorkers]. rewrite Hhost.
  rewrite parseWithWorker_large by done. cbn [host log].
  repeat split. by rewrite insert_app_r_alt, Nat.sub_diag by lia.
Qed.

(** C4: when the text is malformed the error shown is the decoder's message,
    [onParsed] is not called, and the parent's state (the last accepted
    document) stays as it was: on the main thread for a short text, and from
    the dispatch to the delivery of the worker's reply for a long one.  The
    handler of a failure reply does so in whatever state it is delivered. *)
Theorem failed_decode_keeps_last_good (text message : string) (w : World Host) :
  JSON_parse text = inr message →
  let w1 := parseWithWorker text w in
  let id := length (workers w) in
  let w3 := main_turn id (worker_turn id w1) in
  (Z.of_nat (String.length text) ≤ 100000 →
     error w1 = Some message
     ∧ host w1 = host w
     ∧ filter is_onParsed (log w1) = filter is_onParsed (log w))
  ∧ (100000 < Z.of_nat (String.length text) →
     host w1 = host w
     ∧ error w3 = Some message
     ∧ host w3 = host w
     ∧ filter is_onParsed (log w3) = filter is_onParsed (log w))
  ∧ (∀ (id' : nat) (w2 : World Host),
       let w' := worker_onmessage id' (Worker.Failure message) w2 in
       error w' = Some message
       ∧ host w' = host w2
       ∧ log w' = log w2 ++ [Terminated id']).
Proof.
  intros Hbad. cbn zeta. split; [|split].
  - intros Hlen. rewrite parseWithWorker_small, parseJSON_spec, Hbad by done.
    cbn. repeat split. rewrite filter_app. cbn. by rewrite app_nil_r.
  - intros Hlen.
    destruct (large_decode_run text w Hlen)
      as (Hw1 & Hw2 & Hlog & Hhost & Herr & Hw3 & _).
    rewrite Hbad in Hlog, Hw3. cbn zeta in Hw3. rewrite Hw3.
    rewrite worker_onmessage_failure.
    cbn [error host log setWorkers]. rewrite Hhost, Hlog.
    rewrite parseWithWorker_large by done. cbn [host log].
    repeat split. rewrite !filter_app. cbn. by rewrite !app_nil_r.
  - intros id' w2. by rewrite worker_onmessage_failure.
Qed.

(** C5: the worker's script posts exactly one reply to a message,
    [{success: true, data}] when the text decodes and [{success: false,
    error}] with the decoder's message when it does not; a large decode gets
    a worker of its own, which no earlier worker is; the main thread stops
    that worker on its reply, of either kind, and a stopped worker takes no
    further turn. *)
Theorem background_decoder_contract (text : string) (w : World Host) :
  let reply := match JSON_parse text with
               | inl parsed => Worker.Success parsed
               | inr message => Worker.Failure message
               end in
  Worker.onmessage JSON_parse text = [reply]
  ∧ (100000 < Z.of_nat (String.length text) →
     let id := length (workers w) in
     let w1 := parseWithWorker text w in
     let w2 := worker_turn id w1 in
     let w3 := main_turn id w2 in
     workers w !! id = None
     ∧ workers w1 = workers w ++ [Running [text] []]
     ∧ workers w2 = workers w ++ [Running [] [reply]]
     ∧ log w2 = log w1 ++ [Decoded (InWorker id) text; Replied id reply]
     ∧ worker_turn id w2 = w2
     ∧ workers w3 = workers w ++ [Stopped]
     ∧ Terminated id ∈ log w3
     ∧ worker_turn id w3 = w3
     ∧ main_turn id w3 = w3)
  ∧ (∀ (id : nat) (r : Worker.Reply) (w' : World Host),
       (id < length (workers w'))%nat →
       workers (worker_onmessage id r w') !! id = Some Stopped).
Proof.
  cbn zeta. split; [|split].
  - unfold Worker.onmessage. by destruct (JSON_parse text).
  - intros Hlen.
    destruct (large_decode_run text w Hlen)
      as (Hw1 & Hw2 & Hlog & Hhost & Herr & Hw3 & Hstop).
    cbn zeta in *.
    split; [by apply lookup_ge_None_2|].
    split; [done|]. split; [done|]. split; [done|].
    split.
    { eapply worker_turn_idle. rewrite Hw2.
      by rewrite lookup_app_r, Nat.sub_diag by lia. }
    split; [done|].
    split.
    { rewrite Hw3. destruct (JSON_parse text).
      - rewrite worker_onmessage_success. cbn [log].
        apply elem_of_app. right. apply elem_of_cons. by left.
      - rewrite worker_onmessage_failure. cbn [log].
        apply elem_of_app. right. apply elem_of_cons. by left. }
    apply turn_stopped. rewrite Hstop.
    by rewrite lookup_app_r, Nat.sub_diag by lia.
  - intros id r w' Hid.
    destruct r; [rewrite worker_onmessage_success|rewrite worker_onmessage_failure];
      cbn [workers]; by apply list_lookup_insert_eq.
Qed.

Lemma quiet_step (a : Action) (w : World Host) :
  quiet a = true →
  let w' := step onParsed sampleData JSON_parse JSON_stringify a w in
  log w' = log w ∧ host w' = host w ∧ error w' = error w
  ∧ workers w' = workers w.
Proof.
  destruct a; try discriminate; intros _; cbn.
  - done.
  - unfold elapse. destruct (pending w) as [[deadline value]|]; [|done].
    by destruct (deadline <=? clock w + ms).
Qed.

(** C6, as the component has it: typing only stores the text (and feeds the
    debounce timer, whose output nothing reads), so no sequence of keystrokes
    and pauses, however long, starts a decode or calls [onParsed]; a paste
    and a file upload decode their text in the same step; the Parse button
    decodes the stored text unless it is blank; load-sample decodes nothing:
    it hands the sample value itself to [onParsed] and, unless that call
    throws, clears the error. *)
Theorem typing_never_decodes (w : World Host) :
  (∀ actions : list Action,
     forallb quiet actions = true →
     let w' := run onParsed sampleData JSON_parse JSON_stringify actions w in
     log w' = log w ∧ host w' = host w ∧ error w' = error w
     ∧ workers w' = workers w)
  ∧ (∀ text : string,
       handlePaste onParsed JSON_parse (Some text) w
       = parseWithWorker text (setRawText text w)
       ∧ handleFileUpload onParsed JSON_parse (Some text) w
         = parseWithWorker text (setRawText text w))
  ∧ handleParse onParsed JSON_parse w
    = (if blank (rawText w) then w else parseWithWorker (rawText w) w)
  ∧ (truthy sampleData = true →
     let w' := handleLoadSample onParsed sampleData JSON_stringify w in
     log w' = log w ++ [OnParsed sampleData]
     ∧ host w' = (onParsed sampleData (host w)).1
     ∧ error w' = match (onParsed sampleData (host w)).2 with
                  | None => None
                  | Some _ => error w
                  end
     ∧ rawText w' = JSON_stringify sampleData
     ∧ workers w' = workers w).
Proof.
  split; [|split; [|split]].
  - intros actions. revert w.
    induction actions as [|a actions IH]; intros w Hq; [done|].
    cbn in Hq. apply andb_true_iff in Hq as [Ha Hq]. cbn zeta.
    unfold run. cbn [fold_left].
    destruct (quiet_step a w Ha) as (Hl & Hh & He & Hw).
    destruct (IH (step onParsed sampleData JSON_parse JSON_stringify a w) Hq)
      as (Hl' & Hh' & He' & Hw'). unfold run in *.
    rewrite Hl', Hh', He', Hw'. by rewrite Hl, Hh, He, Hw.
  - done.
  - unfold handleParse. by destruct (blank (rawText w)).
  - intros Hs. unfold handleLoadSample. rewrite Hs.
    unfold call_onParsed, setRawText, useDebounce, note, setError, setHost.
    cbn [workers log rawText error debouncedText pending clock host].
    by destruct (onParsed sampleData (host w)) as [h [thrown|]].
Qed.

End IngestionFacts.

(** C6 as stated fails: load-sample is not a decode.  With the sample of
    TransactionParser nothing is parsed, on the main thread or in a worker,
    and typed text is not decoded after the quiet window either. *)
Lemma load_sample_and_typing_decode_nothing :
  let step := JsonInput.run Sample.onParsed Pages.sampleExpenses
                Sample.JSON_parse Sample.JSON_stringify in
  let loaded := step [JsonInput.LoadSample] Sample.mounted in
  let typed := step [JsonInput.Type_ "[]"; JsonInput.Elapse 300;
                     JsonInput.Elapse 60000] Sample.mounted in
  ¬ (∃ e, e ∈ JsonInput.log loaded
          ∧ (JsonInput.is_decode e || JsonInput.is_dispatch e) = true)
  ∧ JsonInput.log loaded = [JsonInput.OnParsed Pages.sampleExpenses]
  ∧ JsonInput.log typed = []
  ∧ JsonInput.debouncedText typed = "[]"
  ∧ Pages.expenses (JsonInput.host typed) = Js.VNull.
Proof.
  cbn zeta. split; [|by vm_compute].
  intros (e & He & Hdec). vm_compute in He.
  apply list_elem_of_singleton in He. by subst e.
Qed.

(** The sample decoder on the two large texts. *)
Lemma length_spaces (n : nat) : String.length (Sample.spaces n) = n.
Proof.
  induction n as [|n IH]; [done|].
  change (S (String.length (Sample.spaces n)) = S n). by rewrite IH.
Qed.

Lemma skip_space_spaces (n : nat) (s : string) :
  Sample.skip_space (Sample.spaces n +:+ s) = Sample.skip_space s.
Proof. induction n as [|n IH]; [done|]. cbn. exact IH. Qed.

Lemma length_append (a b : string) :
  String.length (a +:+ b) = (String.length a + String.length b)%nat.
Proof.
  induction a as [|c a IH]; [done|].
  change (S (String.length (a +:+ b)) = S (String.length a + String.length b)).
  by rewrite IH.
Qed.

Lemma large_text_length :
  Z.of_nat (String.length Sample.large_text) = 100001.
Proof.
  unfold Sample.large_text.
  rewrite length_append, length_spaces, Nat2Z.inj_add, Z2Nat.id by lia.
  reflexivity.
Qed.

Lemma large_garbage_length :
  Z.of_nat (String.length Sample.large_garbage) = 100001.
Proof.
  unfold Sample.large_garbage.
  rewrite length_append, length_spaces, Nat2Z.inj_add, Z2Nat.id by lia.
  reflexivity.
Qed.

Lemma parse_large_text : Sample.JSON_parse Sample.large_text = inl (Js.VArr []).
Proof.
  unfold Sample.JSON_parse, Sample.large_text.
  by rewrite skip_space_spaces.
Qed.

Lemma parse_large_garbage :
  Sample.JSON_parse Sample.large_garbage = inr "Unexpected token".
Proof.
  unfold Sample.JSON_parse, Sample.large_garbage.
  by rewrite skip_space_spaces.
Qed.

(** A short text that decodes: parsed inside the call, and TransactionParser
    receives the value. *)
Example short_text_is_decoded_inline :
  let w := JsonInput.parseWithWorker Sample.onParsed Sample.JSON_parse
             "[]" Sample.mounted in
  JsonInput.log w = [JsonInput.Decoded JsonInput.MainThread "[]";
                     JsonInput.OnParsed (Js.VArr [])]
  ∧ Pages.expenses (JsonInput.host w) = Js.VArr []
  ∧ JsonInput.error w = None
  ∧ JsonInput.workers w = [].
Proof. by vm_compute. Qed.

(** A long text that decodes: nothing is parsed by the call, the worker
    parses, and the parent receives the value when the reply is delivered. *)
Example large_text_goes_through_the_worker :
  let w1 := JsonInput.parseWithWorker Sample.onParsed Sample.JSON_parse
              Sample.large_text Sample.mounted in
  let w3 := JsonInput.main_turn Sample.onParsed 0
              (JsonInput.worker_turn Sample.JSON_parse 0 w1) in
  JsonInput.log w1 = [JsonInput.Spawned 0; JsonInput.Posted 0 Sample.large_text]
  ∧ Pages.expenses (JsonInput.host w1) = Js.VNull
  ∧ Pages.expenses (JsonInput.host w3) = Js.VArr []
  ∧ JsonInput.error w3 = None
  ∧ JsonInput.workers w3 = [JsonInput.Stopped].
Proof.
  assert (100000 < Z.of_nat (String.length Sample.large_text)) as Hlen
    by (rewrite large_text_length; lia).
  destruct (large_decode_success Sample.onParsed Sample.JSON_parse
              Sample.large_text (Js.VArr []) Sample.mounted
              parse_large_text Hlen)
    as (Hlog & Hhost1 & Hhost3 & Herr & Hstop).
  split; [exact Hlog|].
  split; [exact (f_equal Pages.expenses Hhost1)|].
  split; [exact (f_equal Pages.expenses Hhost3)|].
  split; [exact Herr|exact Hstop].
Qed.

(** A failed decode on each path: a short malformed text, and a long one. *)
Lemma failed_decode_witness :
  (Sample.JSON_parse "[x" = inr "Unexpected token"
   ∧ let w1 := JsonInput.parseWithWorker Sample.onParsed Sample.JSON_parse
                 "[x" Sample.mounted in
     JsonInput.error w1 = Some "Unexpected token"
     ∧ JsonInput.host w1 = Pages.fresh
     ∧ filter JsonInput.is_onParsed (JsonInput.log w1) = [])
  ∧ (Sample.JSON_parse Sample.large_garbage = inr "Unexpected token"
     ∧ let w1 := JsonInput.parseWithWorker Sample.onParsed Sample.JSON_parse
                   Sample.large_garbage Sample.mounted in
       let w3 := JsonInput.main_turn Sample.onParsed 0
                   (JsonInput.worker_turn Sample.JSON_parse 0 w1) in
       JsonInput.host w1 = Pages.fresh
       ∧ JsonInput.error w3 = Some "Unexpected token"
       ∧ JsonInput.host w3 = Pages.fresh
       ∧ filter JsonInput.is_onParsed (JsonInput.log w3) = []).
Proof.
  split.
  - split; [reflexivity|].
    destruct (failed_decode_keeps_last_good Sample.onParsed Sample.JSON_parse
                "[x" "Unexpected token" Sample.mounted eq_refl)
      as (Hsmall & _ & _).
    apply Hsmall. vm_compute. discriminate.
  - split; [exact parse_large_garbage|].
    destruct (failed_decode_keeps_last_good Sample.onParsed Sample.JSON_parse
                Sample.large_garbage "Unexpected token" Sample.mounted
                parse_large_garbage)
      as (_ & Hlarge & _).
    apply Hlarge. rewrite large_garbage_length. lia.
Defined.

(** ** The windowed renderer *)

Section TableFacts.
Import Js VirtualTable.

(** C9: with no rows the component returns the "No data to display"
    placeholder and nothing else: no list, no header, no row count.  The
    same holds when [data] is [null] or [undefined]. *)
Theorem empty_collection_renders_placeholder
    (cols : list Column) (height itemSize : option Z) :
  VirtualTable (VArr []) cols height itemSize = Some placeholder
  ∧ VirtualTable VNull cols height itemSize = Some placeholder
  ∧ VirtualTable VUndefined cols height itemSize = Some placeholder
  ∧ placeholder
    = Div "text-center py-12 text-gray-500" None [Text "No data to display"]
  ∧ lists placeholder = 0%nat
  ∧ texts placeholder = ["No data to display"]
  ∧ (∀ overscan scrollOffset, slots overscan scrollOffset placeholder = []).
Proof. repeat split. Qed.

(** With rows, the component returns the header, one list and the footer. *)
Lemma VirtualTable_rows (row : value) (rows : list value)
    (cols : list Column) (height itemSize : option Z) :
  VirtualTable (VArr (row :: rows)) cols height itemSize
  = Some (Div "rounded-lg border border-gray-800 overflow-hidden" None
      [ headerRow cols;
        FixedSizeList (default 400 height)
          (VNum (Z.of_nat (length (row :: rows)))) (default 44 itemSize)
          (Row (VArr (row :: rows)) cols);
        Div "px-4 py-2 bg-gray-900/50 border-t border-gray-800 text-xs text-gray-500"
          None [Expr (VNum (Z.of_nat (length (row :: rows)))); Text " rows"] ]).
Proof.
  unfold VirtualTable, no_data.
  cbn [truthy negb orb get String.eqb Ascii.eqb Bool.eqb default].
  change (String.eqb "length" "length") with true. cbn iota.
  destruct (Z.of_nat (length (row :: rows))) eqn:Hn; [|done|done].
  cbn [length] in Hn. lia.
Qed.

Lemma slots_header (cols : list Column) (overscan scrollOffset : Z) :
  slots overscan scrollOffset (headerRow cols) = [].
Proof.
  unfold headerRow. cbn [slots]. induction cols as [|c cols IH]; [done|].
  cbn. exact IH.
Qed.

Lemma slots_VirtualTable (rows : list value) (cols : list Column)
    (height itemSize : option Z) :
  rows ≠ [] →
  ∃ el : Element,
    VirtualTable (VArr rows) cols height itemSize = Some el
    ∧ ∀ overscan scrollOffset,
        slots overscan scrollOffset el
        = window (Z.of_nat (length rows)) (default 400 height)
            (default 44 itemSize) overscan scrollOffset.
Proof.
  destruct rows as [|row rows]; [done|]. intros _.
  rewrite VirtualTable_rows. eexists. split; [done|].
  intros overscan scrollOffset. cbn [slots map concat to_count].
  rewrite slots_header. cbn [app]. by rewrite app_nil_r.
Qed.

Lemma length_window (itemCount height itemSize overscan scrollOffset : Z) :
  Z.of_nat (length (window itemCount height itemSize overscan scrollOffset))
  = Z.max 0 (window_stop itemCount height itemSize overscan scrollOffset
             - window_start itemSize overscan scrollOffset + 1).
Proof. unfold window. cbn zeta. rewrite length_seqZ. lia. Qed.

(** The rows that meet a viewport of height [height]: at most
    [ceil (height / itemSize) + 1]. *)
Lemma visible_rows_bound (height itemSize scrollOffset : Z) :
  0 < itemSize →
  last_visible height itemSize scrollOffset
  - first_visible itemSize scrollOffset + 1
  ≤ ceil_div height itemSize + 1.
Proof.
  intros HR. unfold last_visible, first_visible, ceil_div.
  pose proof (Z.div_mod scrollOffset itemSize ltac:(lia)) as Hs.
  pose proof (Z.mod_pos_bound scrollOffset itemSize HR) as Hr.
  set (a := scrollOffset / itemSize) in *.
  set (r := scrollOffset mod itemSize) in *.
  replace (scrollOffset + height + itemSize - 1)
    with ((height + r + itemSize - 1) + a * itemSize) by lia.
  rewrite Z.div_add by lia.
  assert ((height + r + itemSize - 1) / itemSize
          ≤ (height + itemSize - 1) / itemSize + 1); [|lia].
  replace ((height + itemSize - 1) / itemSize + 1)
    with ((height + itemSize - 1 + 1 * itemSize) / itemSize)
    by (rewrite Z.div_add by lia; lia).
  apply Z.div_le_mono; lia.
Qed.

(** C3, as the windowing has it: whatever the number of rows and the scroll
    position, at most [ceil (H / R) + 1 + 2 * overscan] row slots are mounted:
    the rows that meet the viewport (one more than [ceil (H / R)] when the
    viewport starts inside a row) and [overscan] rows on each side. *)
Theorem mounted_slots_bounded (rows : list value) (cols : list Column)
    (height itemSize : option Z) (overscan scrollOffset : Z) :
  0 ≤ default 400 height →
  0 < default 44 itemSize →
  0 ≤ overscan →
  ∃ el : Element,
    VirtualTable (VArr rows) cols height itemSize = Some el
    ∧ Z.of_nat (length (slots overscan scrollOffset el))
      ≤ ceil_div (default 400 height) (default 44 itemSize) + 1 + 2 * overscan.
Proof.
  intros HH HR Ho.
  assert (0 ≤ ceil_div (default 400 height) (default 44 itemSize)) as Hc.
  { unfold ceil_div. apply Z.div_pos; lia. }
  destruct (decide (rows = [])) as [->|Hrows].
  { exists placeholder. split; [done|].
    cbn [slots placeholder map concat app length]. lia. }
  destruct (slots_VirtualTable rows cols height itemSize Hrows)
    as (el & Hel & Hslots).
  exists el. split; [done|]. rewrite Hslots, length_window.
  pose proof (visible_rows_bound (default 400 height) (default 44 itemSize)
                scrollOffset HR).
  unfold window_stop, window_start. lia.
Qed.

End TableFacts.

(** The sample collection has a million rows. *)
Lemma million_rows :
  VirtualTable.million ≠ Js.VArr []
  ∧ ∃ rows, VirtualTable.million = Js.VArr rows ∧ rows ≠ []
            ∧ Z.of_nat (length rows) = 1000000.
Proof.
  assert (Z.of_nat (length (repeat VirtualTable.sample_row (Z.to_nat 1000000)))
          = 1000000) as Hlen by (rewrite repeat_length, Z2Nat.id; lia).
  assert (repeat VirtualTable.sample_row (Z.to_nat 1000000) ≠ []) as Hne.
  { intros Hnil. rewrite Hnil in Hlen. cbn [length] in Hlen. lia. }
  split.
  - unfold VirtualTable.million. congruence.
  - exists (repeat VirtualTable.sample_row (Z.to_nat 1000000)).
    split; [reflexivity|]. split; [exact Hne|exact Hlen].
Qed.

(** The bound at a million rows in the default viewport. *)
Lemma mounted_slots_bounded_witness :
  0 ≤ 400 ∧ 0 < 44 ∧ 0 ≤ 1
  ∧ ∃ el : VirtualTable.Element,
      VirtualTable.VirtualTable VirtualTable.million VirtualTable.columns
        None None = Some el
      ∧ Z.of_nat (length (VirtualTable.slots 1 87 el))
        ≤ VirtualTable.ceil_div 400 44 + 1 + 2 * 1.
Proof.
  split; [lia|]. split; [lia|]. split; [lia|].
  apply (mounted_slots_bounded
           (repeat VirtualTable.sample_row (Z.to_nat 1000000))
           VirtualTable.columns None None 1 87);
    cbn [default]; lia.
Defined.

(** C3 as stated fails: a million rows in the default viewport (400 pixels,
    rows of 44) scrolled by 87 pixels.  Rows 1 to 11 meet the viewport: 11
    slots without any overscan, when [ceil (400 / 44) = 10]; with one row of
    overscan rows 0 and 12 come on top: 13 slots, when
    [ceil (400 / 44) + 1 = 11]. *)
Lemma window_exceeds_claimed_bound :
  ∃ el : VirtualTable.Element,
    VirtualTable.VirtualTable VirtualTable.million VirtualTable.columns
      None None = Some el
    ∧ VirtualTable.scrollable 1000000 400 44 87
    ∧ VirtualTable.ceil_div 400 44 = 10
    ∧ VirtualTable.slots 0 87 el = [1; 2; 3; 4; 5; 6; 7; 8; 9; 10; 11]
    ∧ VirtualTable.slots 1 87 el = [0; 1; 2; 3; 4; 5; 6; 7; 8; 9; 10; 11; 12]
    ∧ ¬ (Z.of_nat (length (VirtualTable.slots 0 87 el))
         ≤ VirtualTable.ceil_div 400 44 + 0)
    ∧ ¬ (Z.of_nat (length (VirtualTable.slots 1 87 el))
         ≤ VirtualTable.ceil_div 400 44 + 1).
Proof.
  destruct million_rows as (_ & rows & Hm & Hne & Hlen).
  destruct (slots_VirtualTable rows VirtualTable.columns None None Hne)
    as (el & Hel & Hslots).
  exists el. rewrite Hm. split; [done|]. rewrite !Hslots, Hlen.
  split; [unfold VirtualTable.scrollable; lia|].
  split; [by vm_compute|]. split; [by vm_compute|]. split; [by vm_compute|].
  split; vm_compute; intros H; by apply H.
Qed.

(** ** The loading flags of the pages *)

Section PageFacts.
Import Js Pages.

(** Whatever the [try] block and the [catch] block do, a [finally] that
    clears the flag leaves it cleared. *)
Lemma finally_releases (body : T unit) (handler : Thrown → T unit)
    (k : string) (ui : UI) :
  loading_flag k (try_catch_finally body handler (setLoading k false) ui).1
  = VBool false.
Proof.
  unfold try_catch_finally.
  destruct (body ui) as [ui1 [[]|err]].
  - cbn. unfold loading_flag. cbn [store]. apply flag_setLoading.
  - destruct (handler err ui1) as [ui2 r2].
    cbn. unfold loading_flag. cbn [store]. apply flag_setLoading.
Qed.

(** Every run of the transport client on a fresh request ends. *)
Lemma post_total (transport : Api.Transport) (fuel : nat) (path : string)
    (payload : value) (s : Api.Net) :
  (4 ≤ fuel)%nat →
  ∃ (r : Api.Result) (s' : Api.Net),
    Api.post transport fuel path payload s = Some (r, s').
Proof.
  intros Hfuel. unfold Api.post.
  destruct (api_run transport 3 fuel
              {| Api.baseURL := Api.baseURL Api.create;
                 Api.timeout := Api.timeout Api.create;
                 Api.url := path; Api.method := "post";
                 Api.data := payload; Api._retryCount := None |} s)
    as (k & s' & _ & Hrun & _); [lia | lia | done |].
  eauto.
Qed.

(** A click whose handler gets as far as its request: the request settles,
    and the click is the rest of the handler on that settlement. *)
Lemma click_run (transport : Api.Transport) (begin : T (option value))
    (call : Api.Transport → nat → value → Api.M Api.Result)
    (resume : Api.Result → T unit) (fuel : nat) (ui ui1 : UI)
    (payload : value) :
  begin ui = (ui1, inl (Some payload)) →
  (∃ r s', call transport fuel payload Api.start = Some (r, s')) →
  ∃ (request : Api.Result) (net : Api.Net),
    call transport fuel payload Api.start = Some (request, net)
    ∧ click transport begin call resume fuel ui = Some (resume request ui1).
Proof.
  intros Hbegin (request & net & Hcall). exists request, net.
  split; [done|]. unfold click. by rewrite Hbegin, Hcall.
Qed.

Lemma handleSubmit_begin_sends (ui : UI) :
  truthy (expenses ui) = true →
  handleSubmit_begin ui
  = ((setLoading "parse" true ui).1, inl (Some (expenses ui))).
Proof.
  intros Hguard.
  unfold handleSubmit_begin, the, mbind, T_bind, bind. cbn. by rewrite Hguard.
Qed.

Lemma handleValidate_begin_sends (n : value) (ui : UI) :
  get (AppStore.transactions (store ui)) "length" = Some n →
  truthy n = true →
  handleValidate_begin ui
  = ((setLoading "validate" true ui).1,
     inl (Some (VObj [("wage", wage ui);
                      ("transactions", AppStore.transactions (store ui))]))).
Proof.
  intros Hlen Hguard.
  unfold handleValidate_begin, the, prop, mbind, T_bind, bind. cbn.
  rewrite Hlen. cbn. by rewrite Hguard.
Qed.

Lemma handleFilter_begin_sends (n : value) (ui : UI) :
  get (AppStore.transactions (store ui)) "length" = Some n →
  truthy n = true →
  truthy (filterConfig ui) = true →
  handleFilter_begin ui
  = ((setLoading "filter" true ui).1,
     inl (Some (VObj (spread (filterConfig ui)
                      ++ [("transactions", AppStore.transactions (store ui))])))).
Proof.
  intros Hlen Hguard Hconfig.
  unfold handleFilter_begin, the, prop, mbind, T_bind, bind. cbn beta.
  rewrite Hlen. unfold ret. cbn iota beta. rewrite Hguard. cbn [negb].
  rewrite Hconfig. reflexivity.
Qed.

Lemma handleCalculate_begin_sends (ui : UI) :
  truthy (inputData ui) = true →
  handleCalculate_begin ui
  = ((setLoading "returns" true ui).1, inl (Some (inputData ui))).
Proof.
  intros Hguard.
  unfold handleCalculate_begin, the, mbind, T_bind, bind. cbn.
  by rewrite Hguard.
Qed.

Lemma setLoading_sets (k : string) (val : bool) (ui : UI) :
  loading_flag k (setLoading k val ui).1 = VBool val.
Proof. unfold loading_flag. cbn [setLoading in_store fst store]. apply flag_setLoading. Qed.

(** C7: when the guard of an operation passes (expenses or a calculation
    input is there, the transactions are not empty, a filter configuration is
    there), the handler sets its flag to [true] and sends its request; the
    request settles, whatever the network does, and the handler then ends
    with the flag [false].  The [finally] clears the flag for every
    settlement, resolved or rejected, whatever the [try] and the [catch]
    blocks did. *)
Theorem loading_flag_released
    (transport nps_net index_net : Api.Transport) (index_first : bool)
    (fuel : nat) (ui : UI) :
  (4 ≤ fuel)%nat →
  (* parse *)
  (truthy (expenses ui) = true →
   ∃ (ui1 : UI) (request : Api.Result) (net : Api.Net),
     handleSubmit_begin ui = (ui1, inl (Some (expenses ui)))
     ∧ loading_flag "parse" ui1 = VBool true
     ∧ Api.transactionAPI_parse transport fuel (expenses ui) Api.start
       = Some (request, net)
     ∧ handleSubmit transport fuel ui = Some (handleSubmit_resume request ui1)
     ∧ loading_flag "parse" (handleSubmit_resume request ui1).1 = VBool false)
  (* validate *)
  ∧ (∀ n, get (AppStore.transactions (store ui)) "length" = Some n →
          truthy n = true →
     let payload := VObj [("wage", wage ui);
                          ("transactions", AppStore.transactions (store ui))] in
     ∃ (ui1 : UI) (request : Api.Result) (net : Api.Net),
       handleValidate_begin ui = (ui1, inl (Some payload))
       ∧ loading_flag "validate" ui1 = VBool true
       ∧ Api.transactionAPI_validate transport fuel payload Api.start
         = Some (request, net)
       ∧ handleValidate transport fuel ui
         = Some (handleValidate_resume request ui1)
       ∧ loading_flag "validate" (handleValidate_resume request ui1).1
         = VBool false)
  (* filter *)
  ∧ (∀ n, get (AppStore.transactions (store ui)) "length" = Some n →
          truthy n = true → truthy (filterConfig ui) = true →
     let payload :=
       VObj (spread (filterConfig ui)
             ++ [("transactions", AppStore.transactions (store ui))]) in
     ∃ (ui1 : UI) (request : Api.Result) (net : Api.Net),
       handleFilter_begin ui = (ui1, inl (Some payload))
       ∧ loading_flag "filter" ui1 = VBool true
       ∧ Api.transactionAPI_filter transport fuel payload Api.start
         = Some (request, net)
       ∧ handleFilter transport fuel ui = Some (handleFilter_resume request ui1)
       ∧ loading_flag "filter" (handleFilter_resume request ui1).1 = VBool false)
  (* returns *)
  ∧ (truthy (inputData ui) = true →
     ∃ (ui1 : UI) (nps index : Api.Result) (net1 net2 : Api.Net),
       handleCalculate_begin ui = (ui1, inl (Some (inputData ui)))
       ∧ loading_flag "returns" ui1 = VBool true
       ∧ Api.returnsAPI_nps nps_net fuel (inputData ui) Api.start
         = Some (nps, net1)
       ∧ Api.returnsAPI_index index_net fuel (inputData ui) Api.start
         = Some (index, net2)
       ∧ handleCalculate nps_net index_net index_first fuel ui
         = Some (handleCalculate_resume nps index index_first ui1)
       ∧ loading_flag "returns"
           (handleCalculate_resume nps index index_first ui1).1 = VBool false)
  (* released at settle, in every state and for every settlement *)
  ∧ (∀ request ui1,
       loading_flag "parse" (handleSubmit_resume request ui1).1 = VBool false)
  ∧ (∀ request ui1,
       loading_flag "validate" (handleValidate_resume request ui1).1
       = VBool false)
  ∧ (∀ request ui1,
       loading_flag "filter" (handleFilter_resume request ui1).1 = VBool false)
  ∧ (∀ nps index first ui1,
       loading_flag "returns" (handleCalculate_resume nps index first ui1).1
       = VBool false).
Proof.
  intros Hfuel.
  repeat match goal with |- _ ∧ _ => split end.
  - intros Hguard.
    destruct (click_run transport handleSubmit_begin Api.transactionAPI_parse
                handleSubmit_resume fuel ui _ _
                (handleSubmit_begin_sends ui Hguard))
      as (request & net & Hcall & Hclick); [by apply post_total|].
    eexists _, request, net.
    split; [by apply handleSubmit_begin_sends|].
    split; [apply setLoading_sets|]. split; [exact Hcall|].
    split; [exact Hclick|]. apply finally_releases.
  - intros n Hlen Hguard payload.
    destruct (click_run transport handleValidate_begin
                Api.transactionAPI_validate handleValidate_resume fuel ui _ _
                (handleValidate_begin_sends n ui Hlen Hguard))
      as (request & net & Hcall & Hclick); [by apply post_total|].
    eexists _, request, net.
    split; [by eapply handleValidate_begin_sends|].
    split; [apply setLoading_sets|]. split; [exact Hcall|].
    split; [exact Hclick|]. apply finally_releases.
  - intros n Hlen Hguard Hconfig payload.
    destruct (click_run transport handleFilter_begin
                Api.transactionAPI_filter handleFilter_resume fuel ui _ _
                (handleFilter_begin_sends n ui Hlen Hguard Hconfig))
      as (request & net & Hcall & Hclick); [by apply post_total|].
    eexists _, request, net.
    split; [by eapply handleFilter_begin_sends|].
    split; [apply setLoading_sets|]. split; [exact Hcall|].
    split; [exact Hclick|]. apply finally_releases.
  - intros Hguard.
    destruct (post_total nps_net fuel "/returns:nps" (inputData ui) Api.start
                Hfuel) as (nps & net1 & Hnps).
    destruct (post_total index_net fuel "/returns:index" (inputData ui)
                Api.start Hfuel) as (index & net2 & Hindex).
    eexists _, nps, index, net1, net2.
    split; [by apply handleCalculate_begin_sends|].
    split; [apply setLoading_sets|].
    split; [exact Hnps|]. split; [exact Hindex|].
    split; [|apply finally_releases].
    unfold handleCalculate. rewrite (handleCalculate_begin_sends ui Hguard).
    unfold Api.returnsAPI_nps, Api.returnsAPI_index in *.
    by rewrite Hnps, Hindex.
  - intros request ui1. apply finally_releases.
  - intros request ui1. apply finally_releases.
  - intros request ui1. apply finally_releases.
  - intros nps index first ui1. apply finally_releases.
Qed.

End PageFacts.

(** Off line, in a session in which every page has its input: each of the
    four clicks sends, fails after its retries, and ends with its flag
    [false]. *)
Lemma loading_flag_witness :
  (4 ≤ 4)%nat
  ∧ Js.truthy (Pages.expenses Pages.ready) = true
  ∧ Js.get (AppStore.transactions (Pages.store Pages.ready)) "length"
    = Some (Js.VNum 4)
  ∧ Js.truthy (Js.VNum 4) = true
  ∧ Js.truthy (Pages.filterConfig Pages.ready) = true
  ∧ Js.truthy (Pages.inputData Pages.ready) = true
  ∧ (∃ ui1 request,
       Pages.handleSubmit_begin Pages.ready
       = (ui1, inl (Some Pages.sampleExpenses))
       ∧ Pages.loading_flag "parse" ui1 = Js.VBool true
       ∧ Pages.handleSubmit Api.offline 4 Pages.ready
         = Some (Pages.handleSubmit_resume request ui1)
       ∧ Pages.loading_flag "parse" (Pages.handleSubmit_resume request ui1).1
         = Js.VBool false)
  ∧ (∃ ui1 request,
       Pages.loading_flag "validate" ui1 = Js.VBool true
       ∧ Pages.handleValidate Api.offline 4 Pages.ready
         = Some (Pages.handleValidate_resume request ui1)
       ∧ Pages.loading_flag "validate"
           (Pages.handleValidate_resume request ui1).1 = Js.VBool false)
  ∧ (∃ ui1 request,
       Pages.loading_flag "filter" ui1 = Js.VBool true
       ∧ Pages.handleFilter Api.offline 4 Pages.ready
         = Some (Pages.handleFilter_resume request ui1)
       ∧ Pages.loading_flag "filter"
           (Pages.handleFilter_resume request ui1).1 = Js.VBool false)
  ∧ (∃ ui1 nps index,
       Pages.loading_flag "returns" ui1 = Js.VBool true
       ∧ Pages.handleCalculate Api.offline (Api.always 200) true 4 Pages.ready
         = Some (Pages.handleCalculate_resume nps index true ui1)
       ∧ Pages.loading_flag "returns"
           (Pages.handleCalculate_resume nps index true ui1).1 = Js.VBool false).
Proof.
  destruct (loading_flag_released Api.offline Api.offline (Api.always 200) true
              4 Pages.ready ltac:(lia))
    as (Hparse & Hvalidate & Hfilter & Hreturns & _).
  split; [lia|]. split; [reflexivity|]. split; [reflexivity|].
  split; [reflexivity|]. split; [reflexivity|]. split; [reflexivity|].
  split.
  { destruct (Hparse eq_refl) as (ui1 & request & net & H1 & H2 & _ & H3 & H4).
    by exists ui1, request. }
  split.
  { destruct (Hvalidate (Js.VNum 4) eq_refl eq_refl)
      as (ui1 & request & net & _ & H2 & _ & H3 & H4).
    by exists ui1, request. }
  split.
  { destruct (Hfilter (Js.VNum 4) eq_refl eq_refl eq_refl)
      as (ui1 & request & net & _ & H2 & _ & H3 & H4).
    by exists ui1, request. }
  destruct (Hreturns eq_refl)
    as (ui1 & nps & index & net1 & net2 & _ & H2 & _ & _ & H3 & H4).
  by exists ui1, nps, index.
Defined.

(** Off line: the parse request of TransactionParser fails four times, the
    page shows the fallback message, and the flag is back to [false]. *)
Example submit_while_offline :
  let ui := Pages.handleParsed Pages.sampleExpenses Pages.fresh in
  option_map (λ '(ui', r), (Pages.loading_flag "parse" ui', Pages.toasts ui', r))
    (Pages.handleSubmit Api.offline 4 ui)
  = Some (Js.VBool false,
          [Pages.toast_error (Pages.Plain (Js.VStr "Failed to parse"))],
          inl tt).
Proof. by vm_compute. Qed.

(** * More properties of the code *)

(** ** The transport client, request by request *)

Section RetryFacts.
Import Js Api Retry.

Variable transport : Transport.

(** A run of [api] with its whole trace: the configuration goes out again and
    again, each time with the retry counter the interceptor wrote on it. *)
Lemma api_run_events (left : nat) :
  ∀ (fuel : nat) (cfg : Config) (s : Net),
    (left < fuel)%nat → (left ≤ 3)%nat →
    or0 (_retryCount cfg) = 3 - Z.of_nat left →
    ∃ (k : nat) (s' : Net),
      (k ≤ left)%nat
      ∧ api transport fuel cfg s
        = Some (settlement (settle (length (heap s) + k)%nat
                              (transport (sent s + k)%nat)), s')
      ∧ trace s' = trace s ++ events cfg (sent s) (4 - Z.of_nat left) k
      ∧ sent s' = (sent s + S k)%nat
      ∧ (∀ i, (i < k)%nat → retryable (transport (sent s + i)%nat) = true)
      ∧ ((k < left)%nat → retryable (transport (sent s + k)%nat) = false).
Proof.
  induction left as [|left IH]; intros fuel cfg s Hfuel Hle Hrc;
    (destruct fuel as [|fuel]; [lia|]); rewrite api_unfold.
  - exists 0%nat. rewrite !Nat.add_0_r.
    destruct (settle _ _) as [r|error] eqn:Hs.
    + eexists. split; [lia|]. split; [reflexivity|].
      cbn. split; [reflexivity|]. split; [lia|]. split; intros; lia.
    + destruct (settle_retry_condition _ _ _ Hs) as [[Hc Hr]|[Hc Hr]].
      * rewrite (interceptor_own_config _ _ _ _ Hc). cbn zeta. rewrite Hrc.
        destruct (_ <=? 3) eqn:Hcmp; [apply Z.leb_le in Hcmp; lia|]. cbn [andb].
        eexists. split; [lia|]. split; [reflexivity|].
        cbn. split; [reflexivity|]. split; [lia|]. split; intros; lia.
      * rewrite (interceptor_no_config _ _ _ Hc).
        eexists. split; [lia|]. split; [reflexivity|].
        cbn. split; [reflexivity|]. split; [lia|]. split; intros; lia.
  - destruct (settle _ _) as [r|error] eqn:Hs.
    + exists 0%nat. rewrite !Nat.add_0_r, Hs. eexists.
      split; [lia|]. split; [reflexivity|].
      cbn. split; [reflexivity|]. split; [lia|].
      split; [intros; lia|]. intros _. by eapply settle_fulfilled.
    + destruct (settle_retry_condition _ _ _ Hs) as [[Hc Hr]|[Hc Hr]].
      * rewrite (interceptor_own_config _ _ _ _ Hc). cbn zeta. rewrite Hrc, Hr.
        destruct (_ <=? 3) eqn:Hcmp; [|apply Z.leb_gt in Hcmp; lia]. cbn [andb].
        destruct (retryable (transport (sent s))) eqn:Hretry.
        -- destruct (IH fuel (set_retryCount (3 - Z.of_nat (S left) + 1) cfg)
                       (before_retry cfg (3 - Z.of_nat (S left) + 1) s))
             as (k & s' & Hk & Hrun & Htr & Hsent & Hall & Hstop);
             [lia | lia | cbn; lia |].
           exists (S k), s'. split; [lia|].
           cbn [before_retry heap sent trace] in *.
           rewrite Hrun. rewrite length_app. cbn [length].
           replace (length (heap s) + 1 + k)%nat with (length (heap s) + S k)%nat by lia.
           replace (S (sent s) + k)%nat with (sent s + S k)%nat in * by lia.
           split; [reflexivity|].
           split.
           { rewrite Htr. cbn [events]. rewrite <- app_assoc. cbn [app].
             replace (3 - Z.of_nat (S left) + 1) with (4 - Z.of_nat (S left)) by lia.
             replace (4 - Z.of_nat (S left) + 1) with (4 - Z.of_nat left) by lia.
             reflexivity. }
           split; [lia|].
           split.
           { intros [|i] Hi; [by rewrite Nat.add_0_r|].
             replace (sent s + S i)%nat with (S (sent s) + i)%nat by lia.
             apply Hall. lia. }
           intros Hlt. apply Hstop. lia.
        -- exists 0%nat. rewrite !Nat.add_0_r, Hs. eexists.
           split; [lia|]. split; [reflexivity|].
           cbn. split; [reflexivity|]. split; [lia|].
           split; [intros; lia|done].
      * rewrite (interceptor_no_config _ _ _ Hc).
        exists 0%nat. rewrite !Nat.add_0_r, Hs. eexists.
        split; [lia|]. split; [reflexivity|].
        cbn. split; [reflexivity|]. split; [lia|].
        split; [intros; lia|done].
Qed.

Lemma post_run (fuel : nat) (path : string) (payload : value) (s : Net) :
  (4 ≤ fuel)%nat →
  ∃ (k : nat) (net : Net),
    (k ≤ 3)%nat
    ∧ post transport fuel path payload s
      = Some (settlement (settle (length (heap s) + k)%nat
                            (transport (sent s + k)%nat)), net)
    ∧ trace net = trace s ++ events (request path payload) (sent s) 1 k
    ∧ sent net = (sent s + S k)%nat
    ∧ (∀ i, (i < k)%nat → retryable (transport (sent s + i)%nat) = true)
    ∧ ((k < 3)%nat → retryable (transport (sent s + k)%nat) = false).
Proof.
  intros Hfuel.
  destruct (api_run_events 3 fuel (request path payload) s)
    as (k & net & H); [lia | lia | done |].
  exists k, net. exact H.
Qed.

(** The retry counter is kept on the request's configuration, so every
    request has a budget of its own: whatever went over the network before
    (state [s]), a new request is retried while its failures are retryable,
    at most three times, with pauses of one, two and three seconds. *)
Theorem retry_budget_is_per_request
    (fuel : nat) (path : string) (payload : value) (s : Net) :
  (4 ≤ fuel)%nat →
  ∃ (k : nat) (r : Result) (net : Net) (evs : list Event),
    post transport fuel path payload s = Some (r, net)
    ∧ trace net = trace s ++ evs
    ∧ (k ≤ 3)%nat
    ∧ requests evs = seq (sent s) (S k)
    ∧ delays evs = take k [1000; 2000; 3000]
    ∧ r = settlement (settle (length (heap s) + k)%nat
                        (transport (sent s + k)%nat))
    ∧ (∀ i, (i < k)%nat → retryable (transport (sent s + i)%nat) = true)
    ∧ ((k < 3)%nat → retryable (transport (sent s + k)%nat) = false).
Proof.
  intros Hfuel.
  destruct (post_run fuel path payload s Hfuel)
    as (k & net & Hk & Hrun & Htr & Hsent & Hall & Hstop).
  eexists k, _, net, _. split; [exact Hrun|]. split; [exact Htr|].
  split; [done|].
  repeat split; try done;
    destruct k as [|[|[|[|k]]]]; try done; lia.
Qed.

(** A retry sends the same request again: same URL, method and body; only
    the counter differs, and it counts the retries: absent on the first
    attempt, then 1, 2, 3. *)
Theorem retries_resubmit_the_same_request
    (fuel : nat) (path : string) (payload : value) (s : Net) :
  (4 ≤ fuel)%nat →
  ∃ (r : Result) (net : Net) (evs : list Event),
    post transport fuel path payload s = Some (r, net)
    ∧ trace net = trace s ++ evs
    ∧ Forall (λ c, same_request c (request path payload)) (configs evs)
    ∧ map _retryCount (configs evs)
      = take (length (configs evs)) [None; Some 1; Some 2; Some 3]
    ∧ (1 ≤ length (configs evs) ≤ 4)%nat.
Proof.
  intros Hfuel.
  destruct (post_run fuel path payload s Hfuel)
    as (k & net & Hk & Hrun & Htr & _).
  eexists _, net, _. split; [exact Hrun|]. split; [exact Htr|].
  destruct k as [|[|[|[|k]]]]; [| | | |lia]; cbn;
    (split; [repeat constructor|]); (split; [done|lia]).
Qed.

(** What a request can cost: at most four requests on the network and at
    most six seconds of pauses, [500 * k * (k + 1)] milliseconds when it is
    retried [k] times. *)
Theorem request_cost_is_bounded
    (fuel : nat) (path : string) (payload : value) (s : Net) :
  (4 ≤ fuel)%nat →
  ∃ (r : Result) (net : Net) (evs : list Event),
    post transport fuel path payload s = Some (r, net)
    ∧ trace net = trace s ++ evs
    ∧ (1 ≤ length (requests evs) ≤ 4)%nat
    ∧ length (delays evs) = (length (requests evs) - 1)%nat
    ∧ total (delays evs)
      = 500 * Z.of_nat (length (delays evs)) * (Z.of_nat (length (delays evs)) + 1)
    ∧ 0 ≤ total (delays evs) ≤ 6000.
Proof.
  intros Hfuel.
  destruct (post_run fuel path payload s Hfuel)
    as (k & net & Hk & Hrun & Htr & _).
  eexists _, net, _. split; [exact Hrun|]. split; [exact Htr|].
  destruct k as [|[|[|[|k]]]]; [| | | |lia]; cbn; lia.
Qed.

(** A failure that carries no configuration (it is no axios error) is not
    retried, although it has no response: the promise rejects at once with
    that error, nothing is written and nothing waits. *)
Theorem error_without_config_is_not_retried
    (fuel : nat) (cfg : Config) (s : Net) (message : string) :
  transport (sent s) = NotSent message →
  api transport (S fuel) cfg s
  = Some (Rejected {| err_config := None; err_response := None;
                      err_message := message |},
          {| heap := heap s ++ [cfg]; sent := S (sent s);
             trace := trace s ++ [Sent (sent s) cfg] |}).
Proof.
  intros Ho. rewrite api_unfold, Ho. cbn [settle].
  by rewrite interceptor_no_config.
Qed.

End RetryFacts.

(** A network that is down for the first five requests and answers after. *)
Example second_request_has_its_own_budget :
  let transport : Api.Transport :=
    λ n, if (n <? 5)%nat then Api.NoResponse "Network Error"
         else Api.Responded {| Api.status := 200; Api.body := Js.VArr [] |} in
  ∃ r1 net1 r2 net2,
    Api.post transport 4 "/transactions:parse" Js.VNull Api.start = Some (r1, net1)
    ∧ Api.post transport 4 "/transactions:parse" Js.VNull net1 = Some (r2, net2)
    ∧ Api.requests (Api.trace net1) = [0; 1; 2; 3]%nat
    ∧ (∃ e, r1 = Api.Rejected e)
    ∧ Api.requests (Api.trace net2) = [0; 1; 2; 3; 4; 5]%nat
    ∧ Api.delays (Api.trace net2) = [1000; 2000; 3000; 1000]
    ∧ r2 = Api.Resolved {| Api.status := 200; Api.body := Js.VArr [] |}.
Proof.
  cbn zeta. eexists _, _, _, _.
  split; [by vm_compute|]. split; [by vm_compute|].
  split; [by vm_compute|]. split; [by eexists|]. by vm_compute.
Qed.

Lemma retry_budget_witness :
  (4 ≤ 4)%nat
  ∧ ∃ (k : nat) (r : Api.Result) (net : Api.Net) (evs : list Api.Event),
      Api.post Api.offline 4 "/returns:nps" Js.VNull Api.start = Some (r, net)
      ∧ Api.trace net = Api.trace Api.start ++ evs
      ∧ (k ≤ 3)%nat
      ∧ Api.requests evs = seq (Api.sent Api.start) (S k)
      ∧ Api.delays evs = take k [1000; 2000; 3000]
      ∧ r = Api.settlement (Api.settle (length (Api.heap Api.start) + k)%nat
                              (Api.offline (Api.sent Api.start + k)%nat))
      ∧ (∀ i, (i < k)%nat →
              Api.retryable (Api.offline (Api.sent Api.start + i)%nat) = true)
      ∧ ((k < 3)%nat →
         Api.retryable (Api.offline (Api.sent Api.start + k)%nat) = false).
Proof.
  split; [lia|].
  apply (retry_budget_is_per_request Api.offline 4 "/returns:nps" Js.VNull
           Api.start). lia.
Defined.

Lemma retries_resubmit_witness :
  (4 ≤ 4)%nat
  ∧ ∃ (r : Api.Result) (net : Api.Net) (evs : list Api.Event),
      Api.post Api.fails_twice 4 "/transactions:filter" Js.VNull Api.start
      = Some (r, net)
      ∧ Api.trace net = Api.trace Api.start ++ evs
      ∧ Forall (λ c, Retry.same_request c
                       (Retry.request "/transactions:filter" Js.VNull))
          (Retry.configs evs)
      ∧ map Api._retryCount (Retry.configs evs)
        = take (length (Retry.configs evs)) [None; Some 1; Some 2; Some 3]
      ∧ (1 ≤ length (Retry.configs evs) ≤ 4)%nat.
Proof.
  split; [lia|].
  apply (retries_resubmit_the_same_request Api.fails_twice 4
           "/transactions:filter" Js.VNull Api.start). lia.
Defined.

Lemma request_cost_witness :
  (4 ≤ 4)%nat
  ∧ ∃ (r : Api.Result) (net : Api.Net) (evs : list Api.Event),
      Api.post Api.offline 4 "/returns:index" Js.VNull Api.start = Some (r, net)
      ∧ Api.trace net = Api.trace Api.start ++ evs
      ∧ (1 ≤ length (Api.requests evs) ≤ 4)%nat
      ∧ length (Api.delays evs) = (length (Api.requests evs) - 1)%nat
      ∧ Retry.total (Api.delays evs)
        = 500 * Z.of_nat (length (Api.delays evs))
          * (Z.of_nat (length (Api.delays evs)) + 1)
      ∧ 0 ≤ Retry.total (Api.delays evs) ≤ 6000.
Proof.
  split; [lia|].
  apply (request_cost_is_bounded Api.offline 4 "/returns:index" Js.VNull
           Api.start). lia.
Defined.

Lemma error_without_config_witness :
  (λ _ : nat, Api.NotSent "Converting circular structure to JSON")
    (Api.sent Api.start)
  = Api.NotSent "Converting circular structure to JSON"
  ∧ Api.api (λ _, Api.NotSent "Converting circular structure to JSON") 4
      Api.create Api.start
    = Some (Api.Rejected {| Api.err_config := None; Api.err_response := None;
                            Api.err_message := "Converting circular structure to JSON" |},
            {| Api.heap := [Api.create]; Api.sent := 1;
               Api.trace := [Api.Sent 0 Api.create] |}).
Proof.
  split; [reflexivity|].
  exact (error_without_config_is_not_retried
           (λ _, Api.NotSent "Converting circular structure to JSON")
           3 Api.create Api.start _ eq_refl).
Defined.

(** ** The store and the pages, operation by operation *)

Section StoreComposition.
Import Js AppStore.

(** The loading flags are independent: flags of different operations can be
    written in either order, and a flag written twice keeps the last value. *)
Theorem loading_flags_compose (state : State) (k k' : string) (v v' : value) :
  setLoading k v' (setLoading k v state) = setLoading k v' state
  ∧ (k ≠ k' →
     setLoading k v (setLoading k' v' state)
     = setLoading k' v' (setLoading k v state))
  ∧ (k ≠ k' → flag k' (setLoading k v state) = flag k' state).
Proof.
  split; [|split].
  - unfold setLoading, set_with, set. cbn -[insert union].
    f_equal; [apply insert_insert_eq|]. by rewrite !(left_id_L ∅ (∪)).
  - intros Hk. unfold setLoading, set_with, set. cbn -[insert union].
    f_equal. by apply insert_insert_ne.
  - intros Hk. unfold flag, setLoading, set_with, set. cbn -[insert].
    by rewrite lookup_insert_ne.
Qed.

End StoreComposition.

Section PageBehaviour.
Import Js Pages Outcome.

(** A rejected request changes nothing but the page's own flag, and shows
    one error toast; no exception leaves the handler.  The results on the
    page and in the store are the ones of the last success.  When the network
    gave no response the toast shows the page's fallback text. *)
Theorem rejected_request_keeps_results (e : Api.Error) (ui : UI) :
  handleSubmit_resume (Api.Rejected e) ui
  = (with_store_and_toast (AppStore.setLoading "parse" (VBool false))
       (toast_error (Plain (error_text e "Failed to parse"))) ui, inl tt)
  ∧ handleValidate_resume (Api.Rejected e) ui
    = (with_store_and_toast (AppStore.setLoading "validate" (VBool false))
         (toast_error (Plain (error_text e "Validation failed"))) ui, inl tt)
  ∧ handleFilter_resume (Api.Rejected e) ui
    = (with_store_and_toast (AppStore.setLoading "filter" (VBool false))
         (toast_error (Plain (error_text e "Filter failed"))) ui, inl tt)
  ∧ (∀ fallback, Api.err_response e = None →
                 error_text e fallback = VStr fallback)
  ∧ (∀ fallback r d fields,
       Api.err_response e = Some r → Api.body r = VObj fields →
       assoc "detail" fields = Some d → truthy d = true →
       error_text e fallback = d).
Proof.
  repeat split.
  - intros fallback He. unfold error_text, detail. by rewrite He.
  - intros fallback r d fields He Hb Hd Ht.
    unfold error_text, detail, get_opt, or_else. rewrite He, Hb. cbn.
    rewrite Hd. cbn. by rewrite Ht.
Qed.

(** ReturnsCalculator stores both results or none: when both requests
    resolve, both bodies are stored; when either is rejected, neither is,
    even if the other one resolved, and the error toast is shown. *)
Theorem returns_are_all_or_nothing
    (nps index : Api.Result) (index_first : bool) (ui : UI) :
  let ui' := (handleCalculate_resume nps index index_first ui).1 in
  match nps, index with
  | Api.Resolved a, Api.Resolved b =>
      npsResult ui' = Api.body a ∧ indexResult ui' = Api.body b
      ∧ toasts ui' = toasts ui ++ [toast_success (Plain (VStr "Returns calculated"))]
  | _, _ =>
      npsResult ui' = npsResult ui ∧ indexResult ui' = indexResult ui
      ∧ ∃ e, toasts ui'
             = toasts ui ++ [toast_error (Plain (error_text e "Calculation failed"))]
  end
  ∧ loading_flag "returns" ui' = VBool false
  ∧ (handleCalculate_resume nps index index_first ui).2 = inl tt.
Proof.
  cbn zeta. split; [|split].
  - destruct nps as [a|e1], index as [b|e2]; cbn.
    + repeat split.
    + repeat split. by exists e2.
    + repeat split. by exists e1.
    + repeat split. exists (if index_first then e2 else e1).
      by destruct index_first.
  - apply finally_releases.
  - by destruct nps as [a|e1], index as [b|e2].
Qed.

(** A parse request answered with [null] (or with no value at all): the
    answer is stored before it is looked at, so the page's result and the
    store's transactions become that value; then reading [data.length]
    throws, which the [catch] turns into the fallback toast, and the flag is
    released.  With that in the store neither TransactionValidator nor
    TemporalFilter can render any more: their buttons read
    [transactions.length]. *)
Theorem empty_answer_is_stored_then_fails (st : Z) (data : value) (ui : UI) :
  nullish data = true →
  let after := handleSubmit_resume
                 (Api.Resolved {| Api.status := st; Api.body := data |}) ui in
  parser_result after.1 = data
  ∧ AppStore.transactions (store after.1) = data
  ∧ toasts after.1 = toasts ui ++ [toast_error (Plain (VStr "Failed to parse"))]
  ∧ loading_flag "parse" after.1 = VBool false
  ∧ after.2 = inl tt
  ∧ validate_disabled after.1 = None
  ∧ filter_disabled after.1 = None.
Proof.
  intros Hn. cbn zeta.
  split; [by destruct data|]. split; [by destruct data|].
  split; [by destruct data|]. split; [apply finally_releases|].
  by destruct data.
Qed.

Lemma length_truthy (row : value) (rows : list value) :
  truthy (VNum (Z.of_nat (length (row :: rows)))) = true.
Proof.
  cbn [truthy length].
  destruct (Z.eqb_spec (Z.of_nat (S (length rows))) 0); [lia|done].
Qed.

Lemma handleValidate_begin_rows (row : value) (rows : list value) (ui : UI) :
  AppStore.transactions (store ui) = VArr (row :: rows) →
  handleValidate_begin ui
  = ({| store := AppStore.setLoading "validate" (VBool true) (store ui);
        toasts := toasts ui; expenses := expenses ui;
        parser_result := parser_result ui; wage := wage ui;
        validator_result := validator_result ui;
        filterConfig := filterConfig ui; filter_result := filter_result ui;
        inputData := inputData ui; npsResult := npsResult ui;
        indexResult := indexResult ui |},
     inl (Some (VObj [("wage", wage ui); ("transactions", VArr (row :: rows))]))).
Proof.
  intros Ht.
  unfold handleValidate_begin, the, prop, mbind, T_bind, bind.
  rewrite Ht. cbn [get]. change (String.eqb "length" "length") with true.
  unfold ret. cbn iota beta. rewrite length_truthy. reflexivity.
Qed.

(** From parse to validate: the rows a successful parse answered are what
    the page shows, what the store holds, what the success toast counts, and
    what the next click on Validate sends, with the wage; with an answer of
    no rows, Validate refuses with its own toast and sends nothing. *)
Theorem validate_sends_what_parse_stored
    (st : Z) (rows : list value) (ui : UI) :
  let data := VArr rows in
  let ui' := (handleSubmit_resume
                (Api.Resolved {| Api.status := st; Api.body := data |}) ui).1 in
  parser_result ui' = data
  ∧ AppStore.transactions (store ui') = data
  ∧ toasts ui'
    = toasts ui ++ [toast_success
                      (Template [inl "Parsed "; inr (VNum (Z.of_nat (length rows)));
                                 inl " transactions"])]
  ∧ loading_flag "parse" ui' = VBool false
  ∧ handleValidate_begin ui'
    = match rows with
      | [] =>
          (with_store_and_toast id
             (toast_error (Plain (VStr "Parse expenses first"))) ui', inl None)
      | _ :: _ =>
          ({| store := AppStore.setLoading "validate" (VBool true) (store ui');
              toasts := toasts ui'; expenses := expenses ui';
              parser_result := parser_result ui'; wage := wage ui';
              validator_result := validator_result ui';
              filterConfig := filterConfig ui'; filter_result := filter_result ui';
              inputData := inputData ui'; npsResult := npsResult ui';
              indexResult := indexResult ui' |},
           inl (Some (VObj [("wage", wage ui); ("transactions", data)])))
      end.
Proof.
  cbn zeta.
  split; [done|]. split; [done|]. split; [done|].
  split; [apply finally_releases|].
  destruct rows as [|row rows].
  - reflexivity.
  - by rewrite (handleValidate_begin_rows row rows).
Qed.


Lemma assoc_snoc (k k' : string) (v : value) (fields : list (string * value)) :
  assoc k (fields ++ [(k', v)])
  = if String.eqb k k' then Some v else assoc k fields.
Proof.
  induction fields as [|[k0 v0] fields IH]; cbn [app assoc].
  - by destruct (String.eqb k k').
  - rewrite IH. by destruct (String.eqb k k').
Qed.

(** The request of TemporalFilter is the configuration with the store's
    transactions added last: they are what the request carries as
    [transactions], also when the configuration has a field of that name,
    and every other field of the configuration goes out unchanged. *)
Theorem filter_request_carries_stored_transactions
    (fields : list (string * value)) (row : value) (rows : list value) (ui : UI) :
  AppStore.transactions (store ui) = VArr (row :: rows) →
  filterConfig ui = VObj fields →
  ∃ (ui1 : UI) (payload : value),
    handleFilter_begin ui = (ui1, inl (Some payload))
    ∧ get payload "transactions" = Some (VArr (row :: rows))
    ∧ (∀ key, key ≠ "transactions" → get payload key = get (VObj fields) key)
    ∧ loading_flag "filter" ui1 = VBool true
    ∧ toasts ui1 = toasts ui.
Proof.
  intros Ht Hc.
  unfold handleFilter_begin, the, prop, mbind, T_bind, bind.
  rewrite Ht. cbn [get]. change (String.eqb "length" "length") with true.
  unfold ret. cbn iota beta. rewrite length_truthy. cbn [negb].
  rewrite Hc. cbn [truthy negb spread].
  eexists _, _. split; [reflexivity|].
  split; [|split; [|split]].
  - cbn [get]. by rewrite assoc_snoc.
  - intros key Hkey. cbn [get]. rewrite assoc_snoc.
    destruct (String.eqb_spec key "transactions"); [done|done].
  - cbn. apply flag_setLoading.
  - reflexivity.
Qed.

(** What the validator page does with an answer that is an object: a
    missing (or falsy) [valid] or [invalid] list is stored as an empty list,
    and the toast counts what was stored; lists that are there are stored as
    they are. *)
Theorem missing_validation_lists_default_to_empty
    (st : Z) (fields : list (string * value)) (ui : UI) :
  let body := VObj fields in
  let ui' := (handleValidate_resume
                (Api.Resolved {| Api.status := st; Api.body := body |}) ui).1 in
  let valid := or_else (default VUndefined (assoc "valid" fields)) (VArr []) in
  let invalid := or_else (default VUndefined (assoc "invalid" fields)) (VArr []) in
  validator_result ui' = body
  ∧ AppStore.validTransactions (store ui') = valid
  ∧ AppStore.invalidTransactions (store ui') = invalid
  ∧ toasts ui'
    = toasts ui ++ [toast_success
                      (Template [inr (get_opt valid "length"); inl " valid, ";
                                 inr (get_opt invalid "length"); inl " invalid"])]
  ∧ (assoc "valid" fields = None → valid = VArr [])
  ∧ (assoc "invalid" fields = None → invalid = VArr [])
  ∧ (∀ vs, assoc "valid" fields = Some (VArr vs) →
           valid = VArr vs ∧ get_opt valid "length" = VNum (Z.of_nat (length vs)))
  ∧ (∀ vs, assoc "invalid" fields = Some (VArr vs) →
           invalid = VArr vs ∧ get_opt invalid "length" = VNum (Z.of_nat (length vs)))
  ∧ (handleValidate_resume
       (Api.Resolved {| Api.status := st; Api.body := body |}) ui).2 = inl tt.
Proof.
  cbn zeta. repeat split.
  - by intros ->.
  - by intros ->.
  - by rewrite H.
  - by rewrite H.
  - by rewrite H.
  - by rewrite H.
Qed.

(** A handler that does not send its request leaves the store alone, flags
    included; one that sends has set its own flag and nothing else, and has
    shown no toast. *)
Theorem no_request_no_flag (ui : UI) :
  (match (handleSubmit_begin ui).2 with
   | inl (Some _) =>
       store (handleSubmit_begin ui).1
       = AppStore.setLoading "parse" (VBool true) (store ui)
       ∧ toasts (handleSubmit_begin ui).1 = toasts ui
   | _ => store (handleSubmit_begin ui).1 = store ui
   end)
  ∧ (match (handleValidate_begin ui).2 with
     | inl (Some _) =>
         store (handleValidate_begin ui).1
         = AppStore.setLoading "validate" (VBool true) (store ui)
         ∧ toasts (handleValidate_begin ui).1 = toasts ui
     | _ => store (handleValidate_begin ui).1 = store ui
     end)
  ∧ (match (handleFilter_begin ui).2 with
     | inl (Some _) =>
         store (handleFilter_begin ui).1
         = AppStore.setLoading "filter" (VBool true) (store ui)
         ∧ toasts (handleFilter_begin ui).1 = toasts ui
     | _ => store (handleFilter_begin ui).1 = store ui
     end)
  ∧ (match (handleCalculate_begin ui).2 with
     | inl (Some _) =>
         store (handleCalculate_begin ui).1
         = AppStore.setLoading "returns" (VBool true) (store ui)
         ∧ toasts (handleCalculate_begin ui).1 = toasts ui
     | _ => store (handleCalculate_begin ui).1 = store ui
     end).
Proof.
  repeat split.
  - unfold handleSubmit_begin, the, mbind, T_bind, bind. cbn.
    by destruct (truthy (expenses ui)).
  - unfold handleValidate_begin, the, prop, mbind, T_bind, bind. cbn.
    destruct (get _ _) as [n|]; cbn; [|done]. by destruct (truthy n).
  - unfold handleFilter_begin, the, prop, mbind, T_bind, bind. cbn.
    destruct (get _ _) as [n|]; cbn; [|done].
    destruct (truthy n); cbn; [|done].
    by destruct (truthy (filterConfig ui)).
  - unfold handleCalculate_begin, the, mbind, T_bind, bind. cbn.
    by destruct (truthy (inputData ui)).
Qed.

(** Whatever the answer, a handler leaves the flags of the other operations
    as they were: after it the loading map is the old one with the handler's
    own key at [false]. *)
Theorem handlers_touch_only_their_flag
    (request nps index : Api.Result) (index_first : bool) (ui : UI) :
  AppStore.loading (store (handleSubmit_resume request ui).1)
  = <["parse" := VBool false]> (AppStore.loading (store ui))
  ∧ AppStore.loading (store (handleValidate_resume request ui).1)
    = <["validate" := VBool false]> (AppStore.loading (store ui))
  ∧ AppStore.loading (store (handleFilter_resume request ui).1)
    = <["filter" := VBool false]> (AppStore.loading (store ui))
  ∧ AppStore.loading
      (store (handleCalculate_resume nps index index_first ui).1)
    = <["returns" := VBool false]> (AppStore.loading (store ui)).
Proof.
  repeat split.
  - destruct request as [[st data]|e]; [|done].
    unfold handleSubmit_resume, try_catch_finally, settled, await, prop,
      mbind, T_bind, bind. cbn -[insert get].
    by destruct (get data "length").
  - destruct request as [[st data]|e]; [|done].
    unfold handleValidate_resume, try_catch_finally, settled, await, prop,
      mbind, T_bind, bind. cbn -[insert get].
    destruct (get data "valid"); cbn -[insert get]; [|done].
    by destruct (get data "invalid").
  - by destruct request as [[st data]|e].
  - destruct nps as [a|e1], index as [b|e2]; done.
Qed.

End PageBehaviour.

(** A configuration with a stray [transactions] field: the request carries
    the store's. *)
Lemma filter_request_witness :
  AppStore.transactions (Pages.store Outcome.stray_filter)
  = Js.VArr [VirtualTable.sample_row]
  ∧ Pages.filterConfig Outcome.stray_filter
    = Js.VObj [("q", Js.VArr []); ("transactions", Js.VStr "stray")]
  ∧ ∃ (ui1 : Pages.UI) (payload : Js.value),
      Pages.handleFilter_begin Outcome.stray_filter = (ui1, inl (Some payload))
      ∧ Js.get payload "transactions" = Some (Js.VArr [VirtualTable.sample_row])
      ∧ (∀ key, key ≠ "transactions" →
           Js.get payload key
           = Js.get (Js.VObj [("q", Js.VArr []); ("transactions", Js.VStr "stray")]) key)
      ∧ Pages.loading_flag "filter" ui1 = Js.VBool true
      ∧ Pages.toasts ui1 = Pages.toasts Outcome.stray_filter.
Proof.
  split; [reflexivity|]. split; [reflexivity|].
  exact (filter_request_carries_stored_transactions
           [("q", Js.VArr []); ("transactions", Js.VStr "stray")]
           VirtualTable.sample_row [] Outcome.stray_filter eq_refl eq_refl).
Defined.

(** The service answers 200 with the JSON text [null]. *)
Lemma empty_answer_witness :
  Js.nullish Js.VNull = true
  ∧ let after := Pages.handleSubmit_resume
                   (Api.Resolved {| Api.status := 200; Api.body := Js.VNull |})
                   Pages.ready in
    Pages.parser_result after.1 = Js.VNull
    ∧ AppStore.transactions (Pages.store after.1) = Js.VNull
    ∧ Pages.toasts after.1
      = Pages.toasts Pages.ready
        ++ [Pages.toast_error (Pages.Plain (Js.VStr "Failed to parse"))]
    ∧ Pages.loading_flag "parse" after.1 = Js.VBool false
    ∧ after.2 = inl tt
    ∧ Pages.validate_disabled after.1 = None
    ∧ Pages.filter_disabled after.1 = None.
Proof.
  split; [reflexivity|].
  exact (empty_answer_is_stored_then_fails 200 Js.VNull Pages.ready eq_refl).
Defined.

(** ** The ingestion controller over time *)

Section DecoderFacts.
Import Js JsonInput Decoders.

Context {Host : Type}.
Variable onParsed : value → Host → Host * option string.
Variable sampleData : value.
Variable JSON_parse : string → value + string.
Variable JSON_stringify : value → string.

(** Where a decode runs does not change its outcome: after the worker's
    reply is delivered the parent's state is what the inline decode of the
    same text would have made it, and so is the error shown, but for one
    case: an exception of [onParsed] is shown as the error inline and is lost
    on the worker path. *)
Theorem decode_outcome_is_path_independent (text : string) (w : World Host) :
  100000 < Z.of_nat (String.length text) →
  let id := length (workers w) in
  let through_worker :=
    main_turn onParsed id
      (worker_turn JSON_parse id (parseWithWorker onParsed JSON_parse text w)) in
  let inline := parseJSON onParsed JSON_parse text w in
  host through_worker = host inline
  ∧ filter is_onParsed (log through_worker) = filter is_onParsed (log inline)
  ∧ rawText through_worker = rawText inline
  ∧ match JSON_parse text with
    | inl parsed =>
        match (onParsed parsed (host w)).2 with
        | None => error through_worker = error inline
        | Some message =>
            error through_worker = None ∧ error inline = Some message
        end
    | inr _ => error through_worker = error inline
    end.
Proof.
  intros Hlen. cbn zeta.
  destruct (large_decode_run onParsed JSON_parse text w Hlen)
    as (Hw1 & Hw2 & Hlog & Hhost & Herr & Hw3 & _).
  cbn zeta in Hw3. rewrite Hw3, parseJSON_spec.
  assert (rawText (worker_turn JSON_parse (length (workers w))
                     (parseWithWorker onParsed JSON_parse text w)) = rawText w)
    as Hraw.
  { erewrite worker_turn_pending.
    - cbn. by rewrite parseWithWorker_large.
    - rewrite Hw1. by rewrite lookup_app_r, Nat.sub_diag by lia. }
  destruct (JSON_parse text) as [parsed|message].
  - rewrite worker_onmessage_success.
    cbn [host log error rawText setWorkers]. rewrite Hhost, Hlog, Hraw.
    rewrite parseWithWorker_large by done. cbn [log].
    split; [done|]. split.
    { rewrite !filter_app. cbn. by rewrite !app_nil_r. }
    split; [done|]. by destruct (onParsed parsed (host w)) as [h [m|]].
  - rewrite worker_onmessage_failure.
    cbn [host log error rawText setWorkers]. rewrite Hhost, Hlog, Hraw.
    rewrite parseWithWorker_large by done. cbn [log].
    split; [done|]. split; [|done].
    rewrite !filter_app. cbn. by rewrite !app_nil_r.
Qed.


Lemma replies_of_app (id : nat) (a b : list Event) :
  replies_of id (a ++ b) = replies_of id a ++ replies_of id b.
Proof. apply omap_app. Qed.

Lemma adds_no_reply_refl (w w' : World Host) :
  log w' = log w → workers w' = workers w → adds_no_reply w w'.
Proof.
  intros Hl Hw. split; [|by left].
  exists []. by rewrite app_nil_r.
Qed.

Lemma parseWithWorker_adds_no_reply (text : string) (w0 w : World Host) :
  log w = log w0 → workers w = workers w0 →
  adds_no_reply w0 (parseWithWorker onParsed JSON_parse text w).
Proof.
  intros Hl Hw.
  destruct (Z_le_gt_dec (Z.of_nat (String.length text)) 100000) as [Hlen|Hlen].
  - rewrite parseWithWorker_small, parseJSON_spec by done.
    destruct (JSON_parse text); cbn [log workers]; rewrite Hl, Hw;
      (split; [eexists; split; [reflexivity|done]|by left]).
  - rewrite parseWithWorker_large by lia. cbn [log workers]. rewrite Hl, Hw.
    split; [eexists; split; [reflexivity|done]|right; by eexists].
Qed.

Lemma step_adds_no_reply (a : Action) (w : World Host) :
  match a with
  | WorkerTurn _ | MainTurn _ => True
  | _ => adds_no_reply w (step onParsed sampleData JSON_parse JSON_stringify a w)
  end.
Proof.
  destruct a as [val|ms| |[text|]|[text|]| | |]; cbn [step]; try done.
  - by apply adds_no_reply_refl.
  - apply adds_no_reply_refl; unfold elapse;
      destruct (pending w) as [[deadline value]|]; try done;
      by destruct (deadline <=? clock w + ms).
  - unfold handleParse. destruct (blank (rawText w)); cbn [negb].
    + by apply adds_no_reply_refl.
    + by apply parseWithWorker_adds_no_reply.
  - by apply parseWithWorker_adds_no_reply.
  - by apply adds_no_reply_refl.
  - by apply parseWithWorker_adds_no_reply.
  - by apply adds_no_reply_refl.
  - unfold handleLoadSample. destruct (truthy sampleData);
      [|by apply adds_no_reply_refl].
    unfold call_onParsed, setRawText, useDebounce, note, setError, setHost.
    cbn [workers log rawText error debouncedText pending clock host].
    destruct (onParsed sampleData (host w)) as [h [thrown|]];
      cbn [log workers];
      (split; [eexists; split; [reflexivity|done]|by left]).
Qed.

Lemma consistent_adds_no_reply (w w' : World Host) :
  adds_no_reply w w' →
  (∀ id, consistent w id) → ∀ id, consistent w' id.
Proof.
  intros [(evs & Hlog & Hevs) Hws] Hinv id.
  specialize (Hinv id). unfold consistent in *.
  rewrite Hlog, replies_of_app, Hevs, app_nil_r.
  destruct Hws as [->|[text ->]]; [done|].
  destruct (lt_eq_lt_dec id (length (workers w))) as [[Hlt|Heq]|Hgt].
  - by rewrite lookup_app_l.
  - subst id. rewrite lookup_app_r, Nat.sub_diag by lia. cbn.
    rewrite lookup_ge_None_2 in Hinv by lia. done.
  - rewrite lookup_ge_None_2 by (rewrite length_app; cbn; lia).
    by rewrite lookup_ge_None_2 in Hinv by lia.
Qed.

Lemma replies_of_other (id id' : nat) (evs : list Event) :
  (∀ e, e ∈ evs → match e with Replied i _ => i = id' | _ => True end) →
  id ≠ id' → replies_of id evs = [].
Proof.
  intros Hevs Hne. induction evs as [|e evs IH]; [done|].
  assert (replies_of id evs = []) as Htail
    by (apply IH; intros e' He'; apply Hevs; by right).
  pose proof (Hevs e ltac:(by left)) as He.
  unfold replies_of in *. cbn [omap list_omap]. rewrite Htail.
  destruct e; try done. subst.
  by destruct (Nat.eqb_spec id id').
Qed.

Lemma consistent_worker_turn (id0 : nat) (w : World Host) :
  (∀ id, consistent w id) →
  ∀ id, consistent (worker_turn JSON_parse id0 w) id.
Proof.
  intros Hinv id.
  destruct (workers w !! id0) as [[[|text inbox] outbox|]|] eqn:Hw0;
    try (unfold worker_turn; rewrite Hw0; apply Hinv).
  pose proof (Hinv id0) as H0. unfold consistent in H0. rewrite Hw0 in H0.
  destruct H0 as [Hone Hrep]. cbn [length] in Hone.
  destruct inbox; [|cbn in Hone; lia].
  destruct outbox; [|cbn in Hone; lia].
  rewrite (worker_turn_pending _ _ _ _ _ _ Hw0). cbn zeta.
  specialize (Hinv id). unfold consistent in *. cbn [workers log].
  rewrite replies_of_app.
  destruct (decide (id = id0)) as [->|Hne].
  - rewrite list_lookup_insert_eq by (by eapply lookup_lt_Some).
    rewrite Hrep. cbn. by rewrite Nat.eqb_refl.
  - rewrite list_lookup_insert_ne by done.
    rewrite (replies_of_other id id0 [Decoded (InWorker id0) text; Replied id0 _]),
      app_nil_r; [done| |done].
    intros e He. apply elem_of_cons in He as [->|He]; [done|].
    apply list_elem_of_singleton in He as ->. done.
Qed.

Lemma consistent_main_turn (id0 : nat) (w : World Host) :
  (∀ id, consistent w id) →
  ∀ id, consistent (main_turn onParsed id0 w) id.
Proof.
  intros Hinv id.
  destruct (workers w !! id0) as [[inbox [|reply outbox]|]|] eqn:Hw0;
    try (unfold main_turn; rewrite Hw0; apply Hinv).
  pose proof (Hinv id0) as H0. unfold consistent in H0. rewrite Hw0 in H0.
  destruct H0 as [Hone Hrep]. cbn [length] in Hone.
  destruct inbox; [|cbn in Hone; lia].
  destruct outbox; [|cbn in Hone; lia].
  rewrite (main_turn_reply _ _ _ _ _ _ Hw0).
  specialize (Hinv id). unfold consistent in *.
  assert (id0 < length (workers w))%nat as Hlt by (by eapply lookup_lt_Some).
  destruct reply as [data|err];
    [rewrite worker_onmessage_success|rewrite worker_onmessage_failure];
    cbn [workers log setWorkers]; rewrite replies_of_app;
    (destruct (decide (id = id0)) as [->|Hne];
     [ rewrite list_lookup_insert_eq by (by rewrite length_insert);
       rewrite Hrep; by cbn
     | rewrite !list_lookup_insert_ne by done;
       cbn; by rewrite app_nil_r ]).
Qed.

Lemma consistent_step (a : Action) (w : World Host) :
  (∀ id, consistent w id) →
  ∀ id, consistent (step onParsed sampleData JSON_parse JSON_stringify a w) id.
Proof.
  intros Hinv.
  pose proof (step_adds_no_reply a w) as Ha.
  destruct a; try (by apply (consistent_adds_no_reply w)).
  - by apply consistent_worker_turn.
  - by apply consistent_main_turn.
Qed.

Lemma consistent_run (actions : list Action) (w : World Host) :
  (∀ id, consistent w id) →
  ∀ id, consistent
          (run onParsed sampleData JSON_parse JSON_stringify actions w) id.
Proof.
  revert w. induction actions as [|a actions IH]; intros w Hinv; [done|].
  unfold run. cbn [fold_left]. apply IH. by apply consistent_step.
Qed.

(** Over any run of the component, whatever the user does and in whatever
    order the turns of the workers and of the main thread come: a decoder
    never replies twice, a stopped decoder has replied exactly once, and a
    live one has exactly one message outstanding, its request or its
    reply. *)
Theorem decoders_reply_at_most_once (actions : list Action) (h : Host) :
  let w := run onParsed sampleData JSON_parse JSON_stringify actions (mount h) in
  (∀ id, (length (replies_of id (log w)) ≤ 1)%nat)
  ∧ (∀ id, workers w !! id = Some Stopped →
           length (replies_of id (log w)) = 1%nat)
  ∧ Forall (λ ws, one_outstanding ws = true) (workers w).
Proof.
  cbn zeta.
  assert (∀ id, consistent
                  (run onParsed sampleData JSON_parse JSON_stringify actions
                     (mount h)) id) as Hinv.
  { apply consistent_run. intros id. unfold consistent. cbn.
    by rewrite lookup_nil. }
  split; [|split].
  - intros id. specialize (Hinv id). unfold consistent in Hinv.
    destruct (workers _ !! id) as [[inbox outbox|]|].
    + destruct Hinv as [Hone ->]. lia.
    + lia.
    + rewrite Hinv. cbn. lia.
  - intros id Hid. specialize (Hinv id). unfold consistent in Hinv.
    by rewrite Hid in Hinv.
  - apply Forall_lookup. intros id ws Hid.
    specialize (Hinv id). unfold consistent in Hinv. rewrite Hid in Hinv.
    destruct ws as [inbox outbox|]; [|done].
    destruct Hinv as [Hone _]. cbn. by apply Nat.eqb_eq.
Qed.


(** A decode at worker [id], from its request to the delivery of its reply. *)
Lemma decode_success_at (id : nat) (text : string) (parsed : value)
    (w : World Host) :
  workers w !! id = Some (Running [text] []) →
  JSON_parse text = inl parsed →
  let w' := main_turn onParsed id (worker_turn JSON_parse id w) in
  host w' = (onParsed parsed (host w)).1
  ∧ error w' = None
  ∧ workers w' = <[id := Stopped]> (workers w).
Proof.
  intros Hw Hok. cbn zeta.
  assert (id < length (workers w))%nat as Hlt by (by eapply lookup_lt_Some).
  rewrite (worker_turn_pending _ _ _ _ _ _ Hw), Hok. cbn zeta.
  erewrite main_turn_reply; last first.
  { cbn [workers app]. by apply list_lookup_insert_eq. }
  rewrite worker_onmessage_success. cbn [host error workers setWorkers].
  by rewrite !list_insert_insert_eq.
Qed.

(** Two long decodes in flight: the parent ends with the value of the reply
    that is delivered last, whichever text was submitted last.  When the
    older decode's reply comes after the newer one's, the older value
    overwrites the newer. *)
Theorem last_delivered_reply_wins
    (older newer : string) (v_older v_newer : value) (w : World Host) :
  100000 < Z.of_nat (String.length older) →
  100000 < Z.of_nat (String.length newer) →
  JSON_parse older = inl v_older →
  JSON_parse newer = inl v_newer →
  let a := length (workers w) in
  let b := S a in
  let both := parseWithWorker onParsed JSON_parse newer
                (parseWithWorker onParsed JSON_parse older w) in
  let newer_first :=
    main_turn onParsed a (worker_turn JSON_parse a
      (main_turn onParsed b (worker_turn JSON_parse b both))) in
  let older_first :=
    main_turn onParsed b (worker_turn JSON_parse b
      (main_turn onParsed a (worker_turn JSON_parse a both))) in
  host both = host w
  ∧ host newer_first = (onParsed v_older (onParsed v_newer (host w)).1).1
  ∧ host older_first = (onParsed v_newer (onParsed v_older (host w)).1).1
  ∧ workers newer_first = workers w ++ [Stopped; Stopped]
  ∧ workers older_first = workers w ++ [Stopped; Stopped].
Proof.
  intros Hlo Hln Hpo Hpn. cbn zeta.
  set (both := parseWithWorker onParsed JSON_parse newer
                 (parseWithWorker onParsed JSON_parse older w)).
  assert (workers both
          = workers w ++ [Running [older] []; Running [newer] []]
          ∧ host both = host w) as [Hws Hh].
  { unfold both. rewrite (parseWithWorker_large _ _ older) by done.
    rewrite parseWithWorker_large by done. cbn [workers host].
    by rewrite <- app_assoc. }
  assert (workers both !! length (workers w) = Some (Running [older] [])) as Ha.
  { rewrite Hws. by rewrite lookup_app_r, Nat.sub_diag by lia. }
  assert (workers both !! S (length (workers w)) = Some (Running [newer] []))
    as Hb.
  { rewrite Hws. rewrite lookup_app_r by lia.
    by replace (S (length (workers w)) - length (workers w))%nat with 1%nat by lia. }
  assert (∀ x y : WorkerState,
            <[length (workers w) := Stopped]>
              (<[S (length (workers w)) := Stopped]> (workers w ++ [x; y]))
            = workers w ++ [Stopped; Stopped]) as Hstop.
  { intros x y. rewrite !insert_app_r_alt by lia.
    replace (S (length (workers w)) - length (workers w))%nat with 1%nat by lia.
    by rewrite Nat.sub_diag. }
  split; [done|].
  destruct (decode_success_at _ _ _ _ Hb Hpn) as (Hh1 & _ & Hw1).
  destruct (decode_success_at _ _ _ _ Ha Hpo) as (Hh2 & _ & Hw2).
  cbn zeta in *.
  assert (workers (main_turn onParsed (S (length (workers w)))
                     (worker_turn JSON_parse (S (length (workers w))) both))
          !! length (workers w) = Some (Running [older] [])) as Ha'.
  { rewrite Hw1, list_lookup_insert_ne by lia. done. }
  assert (workers (main_turn onParsed (length (workers w))
                     (worker_turn JSON_parse (length (workers w)) both))
          !! S (length (workers w)) = Some (Running [newer] [])) as Hb'.
  { rewrite Hw2, list_lookup_insert_ne by lia. done. }
  destruct (decode_success_at _ _ _ _ Ha' Hpo) as (Hh3 & _ & Hw3).
  destruct (decode_success_at _ _ _ _ Hb' Hpn) as (Hh4 & _ & Hw4).
  cbn zeta in *.
  rewrite Hh3, Hh1, Hh4, Hh2, Hh, Hw3, Hw1, Hw4, Hw2, Hws.
  repeat split; [apply Hstop|].
  rewrite list_insert_insert_ne by lia. apply Hstop.
Qed.

End DecoderFacts.

Lemma large_object_length :
  Z.of_nat (String.length Decoders.large_object) = 100002.
Proof.
  unfold Decoders.large_object.
  rewrite length_append, length_spaces, Nat2Z.inj_add, Z2Nat.id by lia.
  reflexivity.
Qed.

Lemma parse_large_object :
  Sample.JSON_parse Decoders.large_object = inl (Js.VObj []).
Proof.
  unfold Sample.JSON_parse, Decoders.large_object.
  by rewrite skip_space_spaces.
Qed.

(** A long text through TransactionParser's input, on the sample decoder. *)
Lemma path_independence_witness :
  100000 < Z.of_nat (String.length Sample.large_text)
  ∧ Pages.expenses
      (JsonInput.host
         (JsonInput.main_turn Sample.onParsed 0
            (JsonInput.worker_turn Sample.JSON_parse 0
               (JsonInput.parseWithWorker Sample.onParsed Sample.JSON_parse
                  Sample.large_text Sample.mounted))))
    = Pages.expenses
        (JsonInput.host
           (JsonInput.parseJSON Sample.onParsed Sample.JSON_parse
              Sample.large_text Sample.mounted)).
Proof.
  assert (100000 < Z.of_nat (String.length Sample.large_text)) as Hlen
    by (rewrite large_text_length; lia).
  split; [exact Hlen|].
  destruct (decode_outcome_is_path_independent Sample.onParsed
              Sample.JSON_parse Sample.large_text Sample.mounted Hlen)
    as (Hhost & _).
  exact (f_equal Pages.expenses Hhost).
Defined.

(** An array submitted first and an object second, the array's reply coming
    last: TransactionParser ends with the array. *)
Lemma last_delivered_witness :
  100000 < Z.of_nat (String.length Sample.large_text)
  ∧ 100000 < Z.of_nat (String.length Decoders.large_object)
  ∧ Sample.JSON_parse Sample.large_text = inl (Js.VArr [])
  ∧ Sample.JSON_parse Decoders.large_object = inl (Js.VObj [])
  ∧ Pages.expenses
      (JsonInput.host
         (JsonInput.main_turn Sample.onParsed 0
            (JsonInput.worker_turn Sample.JSON_parse 0
               (JsonInput.main_turn Sample.onParsed 1
                  (JsonInput.worker_turn Sample.JSON_parse 1
                     (JsonInput.parseWithWorker Sample.onParsed
                        Sample.JSON_parse Decoders.large_object
                        (JsonInput.parseWithWorker Sample.onParsed
                           Sample.JSON_parse Sample.large_text
                           Sample.mounted)))))))
    = Js.VArr [].
Proof.
  assert (100000 < Z.of_nat (String.length Sample.large_text)) as Hl1
    by (rewrite large_text_length; lia).
  assert (100000 < Z.of_nat (String.length Decoders.large_object)) as Hl2
    by (rewrite large_object_length; lia).
  split; [exact Hl1|]. split; [exact Hl2|].
  split; [exact parse_large_text|]. split; [exact parse_large_object|].
  destruct (last_delivered_reply_wins Sample.onParsed Sample.JSON_parse
              Sample.large_text Decoders.large_object (Js.VArr []) (Js.VObj [])
              Sample.mounted Hl1 Hl2 parse_large_text parse_large_object)
    as (_ & Hnewer_first & _).
  exact (f_equal Pages.expenses Hnewer_first).
Defined.

(** ** The rows and the frame of the table *)

Section RowFacts.
Import Js VirtualTable Cells.










(** Data that is there but has no length (an object, say the whole answer
    instead of one of its lists) is not taken for empty: the render fails on
    [data.length.toLocaleString()]. *)
Theorem table_of_data_without_length_fails
    (data n : value) (cols : list Column) (height itemSize : option Z) :
  truthy data = true →
  get data "length" = Some n →
  nullish n = true →
  VirtualTable data cols height itemSize = None.
Proof.
  intros Ht Hg Hn. unfold VirtualTable, no_data. rewrite Ht, Hg. cbn [negb orb].
  destruct n; try discriminate; by cbn.
Qed.

End RowFacts.

(** The validator's whole answer handed to the table. *)
Lemma table_without_length_witness :
  Js.truthy (Js.VObj [("valid", Js.VArr []); ("invalid", Js.VArr [])]) = true
  ∧ Js.get (Js.VObj [("valid", Js.VArr []); ("invalid", Js.VArr [])]) "length"
    = Some Js.VUndefined
  ∧ Js.nullish Js.VUndefined = true
  ∧ VirtualTable.VirtualTable
      (Js.VObj [("valid", Js.VArr []); ("invalid", Js.VArr [])])
      VirtualTable.columns None None = None.
Proof.
  split; [reflexivity|]. split; [reflexivity|]. split; [reflexivity|].
  exact (table_of_data_without_length_fails
           (Js.VObj [("valid", Js.VArr []); ("invalid", Js.VArr [])])
           Js.VUndefined VirtualTable.columns None None
           eq_refl eq_refl eq_refl).
Defined.



(** ** Navigation *)

Section ShellFacts.
Import Js AppStore Shell.

Lemma handleClick_frame (key : string) (state : State) :
  handleClick key state
  = {| transactions := transactions state;
       validTransactions := validTransactions state;
       invalidTransactions := invalidTransactions state;
       filterResult := filterResult state; npsResult := npsResult state;
       indexResult := indexResult state; activeSection := VStr key;
       loading := loading state;
       performanceMetrics := performanceMetrics state;
       extra := extra state |}.
Proof.
  unfold handleClick, setActiveSection, set. cbn -[union].
  by rewrite (left_id_L ∅ (∪)).
Qed.

Lemma clicks_frame (keys : list string) (state : State) :
  let state' := clicks keys state in
  transactions state' = transactions state
  ∧ validTransactions state' = validTransactions state
  ∧ invalidTransactions state' = invalidTransactions state
  ∧ filterResult state' = filterResult state
  ∧ npsResult state' = npsResult state
  ∧ indexResult state' = indexResult state
  ∧ loading state' = loading state
  ∧ performanceMetrics state' = performanceMetrics state
  ∧ extra state' = extra state.
Proof.
  revert state. induction keys as [|key keys IH]; intros state; [done|].
  unfold clicks. cbn [fold_left].
  specialize (IH (handleClick key state)). unfold clicks in IH. cbn zeta in *.
  rewrite handleClick_frame in IH at 2 4 6 8 10 12 14 16 18.
  exact IH.
Qed.

(** After any clicks in the side bar, the page shown is the one of the last
    item clicked, it exists for every item of the side bar, that item and no
    other is highlighted, and everything else in the store (the parsed
    transactions, the results, the flags) is as it was. *)
Theorem navigation_shows_the_last_item_clicked
    (earlier : list string) (key : string) (state : State) :
  key ∈ map fst navItems →
  let state' := clicks (earlier ++ [key]) state in
  ActiveComponent state' = lookup_section key sections
  ∧ is_Some (ActiveComponent state')
  ∧ (∀ k, highlighted state' k = String.eqb key k)
  ∧ filter (λ item, highlighted state' item.1) navItems
    = filter (λ item, String.eqb key item.1) navItems
  ∧ length (filter (λ item, highlighted state' item.1) navItems) = 1%nat
  ∧ transactions state' = transactions state
  ∧ validTransactions state' = validTransactions state
  ∧ invalidTransactions state' = invalidTransactions state
  ∧ filterResult state' = filterResult state
  ∧ npsResult state' = npsResult state
  ∧ indexResult state' = indexResult state
  ∧ loading state' = loading state
  ∧ performanceMetrics state' = performanceMetrics state
  ∧ extra state' = extra state.
Proof.
  intros Hkey. cbn zeta.
  assert (activeSection (clicks (earlier ++ [key]) state) = VStr key) as Hact.
  { unfold clicks. rewrite fold_left_app. cbn [fold_left].
    by rewrite handleClick_frame. }
  unfold ActiveComponent, highlighted. rewrite Hact.
  split; [done|].
  split.
  { cbn in Hkey. rewrite !elem_of_cons in Hkey.
    destruct Hkey as [->|[->|[->|[->|[->|Hk]]]]]; [by eexists..|].
    by apply elem_of_nil in Hk. }
  split; [done|]. split; [done|].
  split.
  { cbn in Hkey. rewrite !elem_of_cons in Hkey.
    destruct Hkey as [->|[->|[->|[->|[->|Hk]]]]]; [done..|].
    by apply elem_of_nil in Hk. }
  apply clicks_frame.
Qed.

End ShellFacts.

(** From the validator to the returns page, by way of the filter. *)
Lemma navigation_witness :
  "returns" ∈ map fst Shell.navItems
  ∧ Shell.ActiveComponent
      (Shell.clicks (["validator"; "filter"] ++ ["returns"]) AppStore.initial)
    = Some Shell.ReturnsCalculator.
Proof.
  assert ("returns" ∈ map fst Shell.navItems) as Hkey.
  { cbn. rewrite !elem_of_cons. tauto. }
  split; [exact Hkey|].
  destruct (navigation_shows_the_last_item_clicked ["validator"; "filter"]
              "returns" AppStore.initial Hkey) as (Hactive & _).
  exact Hactive.
Defined.

(** ** The copy button *)

Section CopyFacts.
Import Js CopyButton.

Variable JSON_stringify : value → string.

(** A string is copied as it is, anything else as JSON; a failed write changes
    nothing.  The "Copied!" mark lasts 2000 ms from the click; the timer of an
    earlier click is not cancelled, so when the button is clicked again while
    the mark still shows, the mark goes away 2000 ms after the first click,
    not the second. *)
Theorem copied_mark_follows_the_first_timer
    (text : value) (d1 d2 : Z) (st : State) :
  timers st = [] →
  0 ≤ d1 < 2000 →
  0 ≤ d2 →
  let once := handleCopy JSON_stringify text true st in
  let twice := handleCopy JSON_stringify text true (elapse d1 once) in
  clipboard once = Some (match text with
                         | VStr s => s
                         | _ => JSON_stringify text
                         end)
  ∧ handleCopy JSON_stringify text false st = st
  ∧ copied (elapse d1 once) = true
  ∧ copied (elapse 2000 once) = false
  ∧ copied (elapse d2 twice) = (d1 + d2 <? 2000)
  ∧ clipboard (elapse d2 twice) = clipboard once.
Proof.
  intros Ht Hd1 Hd2. cbn zeta.
  unfold handleCopy, elapse, payload. cbn. rewrite Ht. cbn.
  repeat split.
  - rewrite orb_false_r.
    destruct (Z.leb_spec (clock st + 2000) (clock st + d1)); [lia|done].
  - rewrite orb_false_r.
    destruct (Z.leb_spec (clock st + 2000) (clock st + 2000)); [done|lia].
  - case_decide; [|lia]. cbn. rewrite orb_false_r.
    destruct (Z.leb_spec (clock st + 2000) (clock st + d1 + d2));
      destruct (Z.leb_spec (clock st + d1 + 2000) (clock st + d1 + d2));
      destruct (Z.ltb_spec (d1 + d2) 2000); cbn; try done; lia.
Qed.

End CopyFacts.

(** A second click after 1500 ms: 500 ms later the mark is gone. *)
Lemma copied_mark_witness :
  CopyButton.timers CopyButton.mount = []
  ∧ 0 ≤ 1500 < 2000
  ∧ 0 ≤ 500
  ∧ CopyButton.copied
      (CopyButton.elapse 500
         (CopyButton.handleCopy Sample.JSON_stringify (Js.VStr "[]") true
            (CopyButton.elapse 1500
               (CopyButton.handleCopy Sample.JSON_stringify (Js.VStr "[]") true
                  CopyButton.mount))))
    = false.
Proof.
  split; [reflexivity|]. split; [lia|]. split; [lia|].
  destruct (copied_mark_follows_the_first_timer Sample.JSON_stringify
              (Js.VStr "[]") 1500 500 CopyButton.mount eq_refl
              ltac:(lia) ltac:(lia)) as (_ & _ & _ & _ & Hmark & _).
  exact Hmark.
Defined.
